(** * ndex2-client: the CX builder, the upload codec and the network model

    A shallow embedding of
    - [ndex2cx/NiceCXBuilder.py] (the staging inventories of the builder),
    - [ndex2/client.py] ([Ndex2.save_new_network] and [DecimalEncoder]),
    - the network model [NiceCXNetwork], whose source file is not part of
      the tree and which is therefore modelled from the specification and
      from [tests/test_nice_cx_network.py],
    followed by the properties established about them. *)

From Stdlib Require Import ZArith List Bool Ascii String.
From Stdlib.Strings Require Import Byte.
From Stdlib Require QArith_base.
From stdpp Require Import base option list gmap strings.

#[local] Set Warnings "-register-all".

Local Open Scope string_scope.
Local Open Scope Z_scope.
Local Open Scope list_scope.

(** ** Python truthiness of the optional arguments *)

(** [if id:] on an optional integer: [None] and [0] are falsy. *)
Definition truthy_int (id : option Z) : bool :=
  match id with
  | Some z => negb (z =? 0)
  | None => false
  end.

(** [if s:] on an optional string: [None] and [''] are falsy. *)
Definition truthy_str (s : option string) : bool :=
  match s with
  | Some "" => false
  | Some _ => true
  | None => false
  end.

(** * NiceCXBuilder.py *)

Module NiceCXBuilder.

(** The node dict [{'@id': .., 'n': .., 'r': .., 'd': ..}]; the keys
    ['r'] and ['d'] are present only when the argument was truthy. *)
Record node := Node {
  node_id : Z;
  node_n : option string;
  node_r : option string;
  node_d : option string
}.

(** What [add_edge] receives as [source] and [target]: nothing, an id, or
    the node dict itself.  The value is stored as it is. *)
Inductive endpoint :=
| EpNone
| EpId (z : Z)
| EpNode (n : node).

(** The edge dict [{'@id': .., 's': .., 't': .., 'i': ..}]. *)
Record edge := Edge {
  edge_id : Z;
  edge_s : endpoint;
  edge_t : endpoint;
  edge_i : string
}.

(** The staging state set up by [__init__]: the two counters and the two
    inventories.  [node_inventory] is keyed by the node name (which may be
    [None]), [edge_inventory] by the edge id. *)
Record builder := Builder {
  node_id_counter : Z;
  edge_id_counter : Z;
  node_inventory : gmap (option string) node;
  edge_inventory : gmap Z edge
}.

Definition init : builder :=
  {| node_id_counter := 0; edge_id_counter := 0;
     node_inventory := ∅; edge_inventory := ∅ |}.

(** [add_this_node['r'] = represents] only [if represents:], and likewise
    for ['d']: the value of the key, [None] when the key is not set. *)
Definition keep_truthy (s : option string) : option string :=
  if truthy_str s then s else None.

(** [add_node(name, represents, id, data_type)]: the new state and the
    returned node id. *)
Definition add_node (b : builder) (name represents : option string)
    (id : option Z) (data_type : option string) : builder * Z :=
  match node_inventory b !! name with
  | Some existing => (b, node_id existing)
  | None =>
      let '(node_id, counter) :=
        if truthy_int id then (default 0 id, node_id_counter b)
        else (node_id_counter b, node_id_counter b + 1) in
      let add_this_node :=
        {| node_id := node_id; node_n := name;
           node_r := keep_truthy represents;
           node_d := keep_truthy data_type |} in
      ({| node_id_counter := counter;
          edge_id_counter := edge_id_counter b;
          node_inventory := <[name := add_this_node]> (node_inventory b);
          edge_inventory := edge_inventory b |},
       node_id)
  end.

(** [add_edge(source, target, interaction, id)]: the new state and the
    returned edge id. *)
Definition add_edge (b : builder) (source target : endpoint)
    (interaction : option string) (id : option Z) : builder * Z :=
  let '(edge_id, counter) :=
    match id with
    | Some i => (i, edge_id_counter b)
    | None => (edge_id_counter b, edge_id_counter b + 1)
    end in
  let add_this_edge :=
    {| edge_id := edge_id; edge_s := source; edge_t := target;
       edge_i := if truthy_str interaction
                 then default "" interaction else "interacts-with" |} in
  ({| node_id_counter := node_id_counter b;
      edge_id_counter := counter;
      node_inventory := node_inventory b;
      edge_inventory := <[edge_id := add_this_edge]> (edge_inventory b) |},
   edge_id).

(** A call of the authoring interface, and a run of a sequence of calls
    from a given state. *)
Inductive call :=
| AddNode (name represents : option string) (id : option Z)
          (data_type : option string)
| AddEdge (source target : endpoint) (interaction : option string)
          (id : option Z).

Definition run_call (b : builder) (c : call) : builder :=
  match c with
  | AddNode name represents id data_type =>
      fst (add_node b name represents id data_type)
  | AddEdge source target interaction id =>
      fst (add_edge b source target interaction id)
  end.

Definition run_calls (b : builder) (cs : list call) : builder :=
  fold_left run_call cs b.

(** Whether a call leaves the id to the builder's counter. *)
Definition allocates (c : call) : bool :=
  match c with
  | AddNode _ _ id _ => negb (truthy_int id)
  | AddEdge _ _ _ _ => true
  end.

(** Pairwise distinct ids in the two inventories. *)
Definition node_ids_distinct (b : builder) : Prop :=
  ∀ k1 k2 n1 n2,
    node_inventory b !! k1 = Some n1 →
    node_inventory b !! k2 = Some n2 →
    k1 ≠ k2 → node_id n1 ≠ node_id n2.

Definition edge_ids_distinct (b : builder) : Prop :=
  ∀ k1 k2 e1 e2,
    edge_inventory b !! k1 = Some e1 →
    edge_inventory b !! k2 = Some e2 →
    k1 ≠ k2 → edge_id e1 ≠ edge_id e2.

(** Every staged edge sits under its own id. *)
Definition edges_keyed (b : builder) : Prop :=
  ∀ k e, edge_inventory b !! k = Some e → edge_id e = k.

(** Every staged node id was handed out by the counter. *)
Definition nodes_counted (b : builder) : Prop :=
  0 ≤ node_id_counter b
  ∧ ∀ k nd, node_inventory b !! k = Some nd →
            0 ≤ node_id nd < node_id_counter b.

(** A run that mixes the two ways of choosing a node id: a node left to
    the counter, a node with the explicit id [1], and a third node left
    to the counter. *)
Definition mixed_calls : list call :=
  [AddNode (Some "x") None None None;
   AddNode (Some "y") None (Some 1) None;
   AddNode (Some "z") None None None].

End NiceCXBuilder.

(** * client.py *)

Module Client.

(** ** The objects [save_new_network] works on

    [cx] is a Python list of dicts and the function mutates it: it appends
    to the list itself, or to the list found under the last dict's
    ['status'] key.  Lists and dicts are therefore objects of a store,
    addressed by their position in it, and values refer to them; two
    references to one position are two names of one object. *)

Inductive val :=
| VNone
| VBool (b : bool)
| VInt (z : Z)
| VStr (s : string)
| VRef (l : nat).

Inductive obj :=
| OList (items : list val)
| ODict (entries : list (string * val)).

Abbreviation heap := (list obj).

(** [d.get(key)]: the value of the first entry of that key, [None] when
    there is none. *)
Fixpoint dict_get (key : string) (entries : list (string * val)) : val :=
  match entries with
  | [] => VNone
  | (k, v) :: rest => if String.eqb k key then v else dict_get key rest
  end.

(** What the function raises: its own [NDExInvalidCXError], and the
    errors of the language: [AttributeError] for [.get] or [.append] on an
    object without it, [TypeError] for [len] of a number, [IndexError] for
    [cx[-1]] on an empty list, [UnboundLocalError] for [stream] when the
    last element is [None] and the branch that binds it is skipped. *)
Inductive exn :=
| NDExInvalidCXError (msg : string)
| AttributeError
| TypeError
| IndexError
| UnboundLocalError.

(** The outcome of [save_new_network] up to the call of
    [save_cx_stream_as_new_network]: an exception, or the store in which
    [json.dumps(cx, cls=DecimalEncoder)] produces the stream that is
    uploaded.  [Dangling] is the outcome on a store in which a
    reference points to no object, which no Python program builds. *)
Inductive outcome :=
| Upload (h : heap)
| Raise (e : exn)
| Dangling.

(** [{"error": "", "success": True}] *)
Definition success_record : obj :=
  ODict [("error", VStr ""); ("success", VBool true)].

(** [cx.append({"status": [{"error": "", "success": True}]})] on the list
    [items] at [l]: the record, the list holding it and the bundle are
    three new objects, allocated in that order. *)
Definition append_status_bundle (h : heap) (l : nat) (items : list val)
    : heap :=
  let r := length h in
  <[l := OList (items ++ [VRef (r + 2)%nat])]>
    (h ++ [success_record; OList [VRef r];
           ODict [("status", VRef (r + 1)%nat)]]).

(** [cx[-1].get('status').append({"error": "", "success": True})] on the
    list [recs] at [s]. *)
Definition append_success_record (h : heap) (s : nat) (recs : list val)
    : heap :=
  let r := length h in
  <[s := OList (recs ++ [VRef r])]> (h ++ [success_record]).

(** The branch on [cx[-1].get('status')] for the dict [entries]. *)
Definition ensure_status (h : heap) (l : nat) (items : list val)
    (entries : list (string * val)) : outcome :=
  match dict_get "status" entries with
  | VNone => Upload (append_status_bundle h l items)
  | VRef s =>
      match h !! s with
      | Some (OList recs) =>
          if (length recs <? 1)%nat
          then Upload (append_success_record h s recs)
          else Upload h
      | Some (ODict es) =>
          if (length es <? 1)%nat then Raise AttributeError else Upload h
      | None => Dangling
      end
  | VStr s =>
      if (String.length s <? 1)%nat then Raise AttributeError else Upload h
  | VBool _ | VInt _ => Raise TypeError
  end.

(** [Ndex2.save_new_network(cx)] *)
Definition save_new_network (h : heap) (cx : val) : outcome :=
  match cx with
  | VNone => Raise (NDExInvalidCXError "CX is None")
  | VRef l =>
      match h !! l with
      | Some (OList items) =>
          if (length items =? 0)%nat
          then Raise (NDExInvalidCXError "CX appears to be empty")
          else
            match last items with
            | None => Raise IndexError
            | Some VNone => Raise UnboundLocalError
            | Some (VRef d) =>
                match h !! d with
                | Some (ODict entries) => ensure_status h l items entries
                | Some (OList _) => Raise AttributeError
                | None => Dangling
                end
            | Some (VBool _ | VInt _ | VStr _) => Raise AttributeError
            end
      | Some (ODict _) => Raise (NDExInvalidCXError "CX is not a list")
      | None => Dangling
      end
  | VBool _ | VInt _ | VStr _ =>
      Raise (NDExInvalidCXError "CX is not a list")
  end.

(** The records of the status bundle that closes [cx] in the store [h]:
    the list under the ['status'] key of the last element. *)
Definition trailing_status (h : heap) (cx : val) : option (list val) :=
  match cx with
  | VRef l =>
      match h !! l with
      | Some (OList items) =>
          match last items with
          | Some (VRef d) =>
              match h !! d with
              | Some (ODict entries) =>
                  match dict_get "status" entries with
                  | VRef s =>
                      match h !! s with
                      | Some (OList recs) => Some recs
                      | _ => None
                      end
                  | _ => None
                  end
              | _ => None
              end
          | _ => None
          end
      | _ => None
      end
  | _ => None
  end.

(** The JSON text [json.dumps] writes for a value, as a tree; [None] when
    the structure is deeper than [fuel] (a cycle is, for every [fuel]) or
    a reference dangles. *)
Inductive json :=
| JNull
| JBool (b : bool)
| JInt (z : Z)
| JStr (s : string)
| JArr (items : list json)
| JObj (entries : list (string * json)).

Fixpoint dumps (fuel : nat) (h : heap) (v : val) : option json :=
  match v with
  | VNone => Some JNull
  | VBool b => Some (JBool b)
  | VInt z => Some (JInt z)
  | VStr s => Some (JStr s)
  | VRef l =>
      match fuel with
      | O => None
      | S fuel' =>
          match h !! l with
          | Some (OList items) => JArr <$> mapM (dumps fuel' h) items
          | Some (ODict entries) =>
              JObj <$> mapM (λ kv, pair kv.1 <$> dumps fuel' h kv.2) entries
          | None => None
          end
      end
  end.

(** The records of the status bundle that closes a serialized network. *)
Definition json_get (key : string) (entries : list (string * json))
    : option json :=
  snd <$> List.find (λ kv, String.eqb kv.1 key) entries.

Definition json_trailing_status (j : json) : option (list json) :=
  match j with
  | JArr items =>
      match last items with
      | Some (JObj entries) =>
          match json_get "status" entries with
          | Some (JArr recs) => Some recs
          | _ => None
          end
      | _ => None
      end
  | _ => None
  end.

(** The number of nodes of a JSON tree. *)
Fixpoint json_size (j : json) : nat :=
  match j with
  | JArr items => S (list_sum (List.map json_size items))
  | JObj entries => S (list_sum (List.map (λ kv, json_size (snd kv)) entries))
  | JNull | JBool _ | JInt _ | JStr _ => 1%nat
  end.

(** [{"error": "", "success": true}] and [{"status": [{"error": "",
    "success": true}]}] as they are written to the stream. *)
Definition success_json : json :=
  JObj [("error", JStr ""); ("success", JBool true)].

Definition status_json : json := JObj [("status", JArr [success_json])].

(** [cx = [{"nodes": [{"@id": 0, "n": "bob", "r": "bob"}]}]], the network
    of [test_upload_to_success], at position [0] of the store. *)
Definition bob_heap : heap :=
  [OList [VRef 1];
   ODict [("nodes", VRef 2)];
   OList [VRef 3];
   ODict [("@id", VInt 0); ("n", VStr "bob"); ("r", VStr "bob")]].

(** [cx = [{"status": []}]] at position [0]: an empty status bundle. *)
Definition empty_status_heap : heap :=
  [OList [VRef 1]; ODict [("status", VRef 2)]; OList []].

(** [cx = [{"status": [{"error": "", "success": True},
                       {"error": "", "success": True}]}]] at position [0]:
    a status bundle that holds two records. *)
Definition two_records_heap : heap :=
  [OList [VRef 1];
   ODict [("status", VRef 2)];
   OList [VRef 3; VRef 4];
   success_record;
   success_record].

(** ** DecimalEncoder

    [default(o)] dispatches on the class of [o].  The Python float and
    the rounding of a decimal to it belong to the language; the embedding
    takes them as given, like the objects of the other classes, which the
    last line hands to the base class. *)

(** A value of [decimal.Decimal]: a finite number, with its sign, its
    coefficient and its exponent of ten, an infinity, a quiet NaN or a
    signaling NaN, the NaNs with their payload. *)
Inductive decimal :=
| DecFinite (sign : bool) (coefficient : N) (exponent : Z)
| DecInfinity (sign : bool)
| DecNaN (sign : bool) (payload : N)
| DecSNaN (sign : bool) (payload : N).

(** [o.is_snan()] *)
Definition is_snan (o : decimal) : bool :=
  match o with
  | DecSNaN _ _ => true
  | DecFinite _ _ _ | DecInfinity _ | DecNaN _ _ => false
  end.

(** The bytes of the ASCII range. *)
Definition is_ascii (b : Byte.byte) : Prop := (Byte.to_N b < 128)%N.

Section DecimalEncoder.

Variables Float Other : Type.

(** The float of a decimal that has one: the nearest double of a finite
    number (an infinity beyond the range), the infinity of an infinity,
    [nan] of a quiet NaN. *)
Variable float_value : decimal → Float.

Inductive pyobj :=
| PyDecimal (d : decimal)
| PyNumpyInteger (n : Z)
| PyBytes (bs : list Byte.byte)
| PyOther (o : Other).

Inductive encoded :=
| EncFloat (f : Float)
| EncInt (z : Z)
| EncStr (s : string).

(** [ValueError] is the error of [float(o)]; [UnicodeDecodeError]
    carries the position of the offending byte; [SuperEncode] is the last
    line, the call of the base class. *)
Inductive default_outcome :=
| Returns (e : encoded)
| ValueError
| UnicodeDecodeError (position : nat) (b : Byte.byte)
| SuperEncode (o : Other).

(** [float(o)] for a decimal: [Decimal.__float__] raises [ValueError]
    ("cannot convert signaling NaN to float") for a signaling NaN and
    converts every other value; [None] is the raise. *)
Definition float (o : decimal) : option Float :=
  if is_snan o then None else Some (float_value o).

(** [o.decode('ascii')]: every byte below 128 is the character of that
    code; the first other byte raises. *)
Fixpoint decode_ascii_from (position : nat) (bs : list Byte.byte)
    : string + nat * Byte.byte :=
  match bs with
  | [] => inl ""
  | b :: rest =>
      if (Byte.to_N b <? 128)%N
      then match decode_ascii_from (S position) rest with
           | inl s => inl (String (ascii_of_byte b) s)
           | inr e => inr e
           end
      else inr (position, b)
  end.

Definition decode_ascii (bs : list Byte.byte) : string + nat * Byte.byte :=
  decode_ascii_from 0 bs.

Definition default (o : pyobj) : default_outcome :=
  match o with
  | PyDecimal d =>
      match float d with
      | Some f => Returns (EncFloat f)
      | None => ValueError
      end
  | PyNumpyInteger n => Returns (EncInt n)
  | PyBytes bs =>
      match decode_ascii bs with
      | inl bytes_string => Returns (EncStr bytes_string)
      | inr (position, b) => UnicodeDecodeError position b
      end
  | PyOther o => SuperEncode o
  end.

End DecimalEncoder.

Arguments PyDecimal {Other} d.
Arguments PyNumpyInteger {Other} n.
Arguments PyBytes {Other} bs.
Arguments PyOther {Other} o.
Arguments EncFloat {Float} f.
Arguments EncInt {Float} z.
Arguments EncStr {Float} s.
Arguments Returns {Float Other} e.
Arguments ValueError {Float Other}.
Arguments UnicodeDecodeError {Float Other} position b.
Arguments SuperEncode {Float Other} o.
Arguments float {Float} float_value o.
Arguments default {Float Other} float_value o.

End Client.

(** * The network model, NiceCXNetwork

    The class is imported by the builder, the client's examples and the
    tests, but its file is not in the tree.  Its operations are modelled
    from the specification (sections 3, 4.2, 4.3, 4.5 and 7) and from the
    calls and expected results of [tests/test_nice_cx_network.py]. *)

Module NiceCXNetwork.

(** Modelled from the spec: the error kinds of section 7 ([NiceCXNetwork]
    and its exceptions module are missing).  The two kinds for which the
    spec fixes messages carry the message of their condition. *)
Inductive error :=
| InvalidArgument (message : string)
| NoStyleFound (message : string)
| UnsupportedSchema
| EncodingError.

(** Modelled from the spec: a call returns its result or fails with an
    error at the point of the call, the model staying as it was (section
    7; the missing methods raise). *)
Inductive result (A : Type) :=
| Ok (a : A)
| Fail (e : error).
Arguments Ok {A} a.
Arguments Fail {A} e.

(** Modelled from the spec: the [ownerKind] argument of [setAttribute]
    (the missing class has one method per kind, [set_node_attribute] and
    [set_edge_attribute]). *)
Inductive owner_kind := NodeOwner | EdgeOwner.

(** Modelled from the spec: the word for the owner kind in the messages
    ("No id found in Node", "No id found in Edge"). *)
Definition owner_label (kind : owner_kind) : string :=
  match kind with NodeOwner => "Node" | EdgeOwner => "Edge" end.

(** Modelled from the spec: the datatype vocabulary of section 3 (the
    missing constants of the model): [string], [boolean], [integer],
    [long], [double] and their [list_of_] variants. *)
Inductive base_type := TString | TBoolean | TInteger | TLong | TDouble.

(** Modelled from the spec: a datatype of the vocabulary, a base type or
    its [list_of_] variant. *)
Inductive datatype :=
| Scalar (t : base_type)
| ListOf (t : base_type).

#[global] Instance base_type_eq_dec : EqDecision base_type.
Proof. solve_decision. Defined.

(** Modelled from the spec: the names of the vocabulary, as the tests
    read them in the datatype field of a record. *)
Definition base_type_name (t : base_type) : string :=
  match t with
  | TString => "string"
  | TBoolean => "boolean"
  | TInteger => "integer"
  | TLong => "long"
  | TDouble => "double"
  end.

(** Modelled from the spec: the name of a datatype; the variant of a base
    type is named [list_of_<type>]. *)
Definition datatype_name (d : datatype) : string :=
  match d with
  | Scalar t => base_type_name t
  | ListOf t => String.append "list_of_" (base_type_name t)
  end.

(** Modelled from the spec: the runtime shapes of an attribute value that
    section 4.2 and the design note of section 9 distinguish (whole
    number, fractional number, boolean, string, sequence), and any other
    JSON-like value.  The shape is the constructor: [VDouble] of [5] is
    the fractional number [5.0]. *)
Inductive value :=
| VInt (z : Z)
| VDouble (x : QArith_base.Q)
| VBool (b : bool)
| VStr (s : string)
| VSeq (items : list value)
| VObject (entries : list (string * value)).

(** Modelled from the spec: the element type a value gives to a sequence
    that holds it (part of the missing inference). *)
Definition shape (v : value) : option base_type :=
  match v with
  | VInt _ => Some TInteger
  | VDouble _ => Some TDouble
  | VBool _ => Some TBoolean
  | VStr _ => Some TString
  | VSeq _ | VObject _ => None
  end.

(** Modelled from the spec: whether a value is of the element type [t]. *)
Definition has_shape (t : base_type) (v : value) : bool :=
  bool_decide (shape v = Some t).

(** Modelled from the spec: datatype inference of [setAttribute]
    (section 4.2; the missing method [NiceCXNetwork.set_node_attribute]):
    whole number, fractional number, boolean, homogeneous sequence of one
    element type ("generalize analogously for other element types"),
    anything else.  A sequence without elements is a sequence of strings,
    [string] being the default datatype of the vocabulary. *)
Definition infer_datatype (v : value) : datatype :=
  match v with
  | VInt _ => Scalar TInteger
  | VDouble _ => Scalar TDouble
  | VBool _ => Scalar TBoolean
  | VSeq [] => ListOf TString
  | VSeq (first :: rest) =>
      match shape first with
      | Some t => if forallb (has_shape t) rest then ListOf t
                  else Scalar TString
      | None => Scalar TString
      end
  | VStr _ | VObject _ => Scalar TString
  end.


(** Modelled from the spec: the attribute record
    [{propertyOf, name, value, datatype}] of section 3. *)
Record attribute := Attribute {
  po : Z;
  n : string;
  v : value;
  d : datatype
}.

(** Modelled from the spec: the node record [{id, name, represents?}]. *)
Record node := Node {
  node_id : Z;
  node_name : string;
  node_represents : option string
}.

(** ** Visual styling records *)

(** Modelled from the spec: what a styling entry applies to (section
    4.5): one of the three default categories, or one node or edge. *)
Inductive style_scope :=
| NetworkDefault
| NodeDefault
| EdgeDefault
| NodeSpecific (id : Z)
| EdgeSpecific (id : Z).

(** Modelled from the spec: a styling entry, the properties it sets for
    what it applies to. *)
Record style_entry := StyleEntry {
  applies_to : style_scope;
  properties : list (string * string)
}.

(** Modelled from the spec: a record of an opaque aspect.  In the legacy
    flat shape of the styling aspect a record is one entry; in the newer
    shape a record is a bundle of entries; any other record is kept as
    the text it came as. *)
Inductive opaque_record :=
| FlatEntry (e : style_entry)
| Bundle (es : list style_entry)
| Verbatim (text : string).

(** Modelled from the spec: the aggregation container of section 4.3,
    with the node store and its monotonic counter, the two attribute
    indices and the opaque aspects keyed by name. *)
Record network := Network {
  nodes : gmap Z node;
  node_id_counter : Z;
  nodeAttributes : gmap Z (list attribute);
  edgeAttributes : gmap Z (list attribute);
  opaqueAspects : gmap string (list opaque_record)
}.

(** Modelled from the spec: the model a constructor call without
    arguments gives, [NiceCXNetwork()] in the tests. *)
Definition empty_network : network :=
  {| nodes := ∅; node_id_counter := 0; nodeAttributes := ∅;
     edgeAttributes := ∅; opaqueAspects := ∅ |}.

(** Modelled from the spec: [createNode(name, represents?)] of section
    4.3 (the missing [NiceCXNetwork.create_node]): the next id of the
    counter, no look-up by name.  Without [represents] the node
    represents its name, as [test_upload_to_success] expects
    (["r": "bob"] after [create_node('bob')]). *)
Definition createNode (net : network) (name : string)
    (represents : option string) : network * Z :=
  let id := node_id_counter net in
  let new_node :=
    {| node_id := id; node_name := name;
       node_represents := Some (default name represents) |} in
  ({| nodes := <[id := new_node]> (nodes net);
      node_id_counter := id + 1;
      nodeAttributes := nodeAttributes net;
      edgeAttributes := edgeAttributes net;
      opaqueAspects := opaqueAspects net |},
   id).

(** ** Attributes *)

(** Modelled from the spec: the attribute index of an owner kind (node
    attributes and edge attributes are two indices, section 2). *)
Definition attributes_of (kind : owner_kind) (net : network)
    : gmap Z (list attribute) :=
  match kind with
  | NodeOwner => nodeAttributes net
  | EdgeOwner => edgeAttributes net
  end.

(** Modelled from the spec: the model with the attribute index of an
    owner kind replaced, everything else as it was. *)
Definition with_attributes (kind : owner_kind) (net : network)
    (attrs : gmap Z (list attribute)) : network :=
  match kind with
  | NodeOwner =>
      {| nodes := nodes net; node_id_counter := node_id_counter net;
         nodeAttributes := attrs; edgeAttributes := edgeAttributes net;
         opaqueAspects := opaqueAspects net |}
  | EdgeOwner =>
      {| nodes := nodes net; node_id_counter := node_id_counter net;
         nodeAttributes := nodeAttributes net; edgeAttributes := attrs;
         opaqueAspects := opaqueAspects net |}
  end.

(** Modelled from the spec: [getAttributes(propertyOf)] of section 4.2
    (the missing [get_node_attributes] and [get_edge_attributes]): the
    owner's list in insertion order, [[]] if none. *)
Definition getAttributes (kind : owner_kind) (net : network) (owner : Z)
    : list attribute :=
  default [] (attributes_of kind net !! owner).

(** Modelled from the spec: the [propertyOf] argument: absent, an element
    id, or a structured reference (a node or edge record) with or
    without an id field. *)
Inductive property_of :=
| PoNone
| PoId (id : Z)
| PoRef (id : option Z).

(** Modelled from the spec: resolution of [propertyOf] to an element id
    (first bullet of section 4.2), with the messages the tests compare
    against. *)
Definition resolve (kind : owner_kind) (owner : property_of) : result Z :=
  match owner with
  | PoNone =>
      Fail (InvalidArgument
              (String.append (owner_label kind)
                             " attribute requires property_of"))
  | PoRef None =>
      Fail (InvalidArgument
              (String.append "No id found in " (owner_label kind)))
  | PoRef (Some id) | PoId id => Ok id
  end.

(** Modelled from the spec: [setAttribute(ownerKind, propertyOf, name,
    value, datatype?, overwrite=false)] of section 4.2 (the missing
    [set_node_attribute] and [set_edge_attribute]).  The checks are made
    in the order of the bullets of that section; the record is appended
    to the owner's list, or replaces the whole list on [overwrite]. *)
Definition setAttribute (kind : owner_kind) (owner : property_of)
    (name : option string) (val : option value)
    (type : option datatype) (overwrite : bool) (net : network)
    : result network :=
  match resolve kind owner with
  | Fail e => Fail e
  | Ok id =>
      match name, val with
      | Some name, Some val =>
          let record :=
            {| po := id; n := name; v := val;
               d := default (infer_datatype val) type |} in
          let records :=
            if overwrite then [record]
            else getAttributes kind net id ++ [record] in
          Ok (with_attributes kind net
                (<[id := records]> (attributes_of kind net)))
      | _, _ =>
          Fail (InvalidArgument
                  (String.append (owner_label kind)
                     " attribute requires the name and values property"))
      end
  end.

(** [needle in text], for the messages. *)
Fixpoint contains (needle text : string) : bool :=
  String.prefix needle text
  || match text with
     | EmptyString => false
     | String _ rest => contains needle rest
     end.

(** ** Style reconciliation *)

(** Modelled from the spec: a record read in the legacy flat shape. *)
Definition as_flat (r : opaque_record) : option style_entry :=
  match r with FlatEntry e => Some e | _ => None end.

(** Modelled from the spec: a record read in the newer bundle shape. *)
Definition as_bundle (r : opaque_record) : option (list style_entry) :=
  match r with Bundle es => Some es | _ => None end.

(** Modelled from the spec: the two decode paths of section 4.5 and of
    the design note on the two schemas: a legacy aspect is its list of
    entries, a newer one the entries of its bundles in order; records of
    neither shape cannot be normalized. *)
Definition decode_style (records : list opaque_record)
    : result (list style_entry) :=
  match mapM as_flat records with
  | Some es => Ok es
  | None =>
      match mapM as_bundle records with
      | Some bundles => Ok (concat bundles)
      | None => Fail UnsupportedSchema
      end
  end.

(** The two shapes of the styling aspect. *)
Definition legacy_shape (records : list opaque_record) : Prop :=
  Forall (λ r, is_Some (as_flat r)) records.

Definition bundle_shape (records : list opaque_record) : Prop :=
  Forall (λ r, is_Some (as_bundle r)) records.

(** Modelled from the spec: the entries of a default category. *)
Definition in_category (c : style_scope) (e : style_entry) : bool :=
  match c, applies_to e with
  | NetworkDefault, NetworkDefault
  | NodeDefault, NodeDefault
  | EdgeDefault, EdgeDefault => true
  | _, _ => false
  end.

(** Modelled from the spec: the canonical bundle of a category: its
    entries, in order. *)
Definition category_bundle (c : style_scope) (es : list style_entry)
    : opaque_record :=
  Bundle (List.filter (in_category c) es).

(** Modelled from the spec: the normalization step of section 4.5: the
    three canonical category bundles, entries of single nodes and edges
    left out. *)
Definition normalize_style (records : list opaque_record)
    : result (list opaque_record) :=
  match decode_style records with
  | Ok es =>
      Ok [category_bundle NetworkDefault es;
          category_bundle NodeDefault es;
          category_bundle EdgeDefault es]
  | Fail e => Fail e
  end.

(** Modelled from the spec: [addOpaqueAspect(name, records)] of section
    4.3: replace by name. *)
Definition addOpaqueAspect (name : string) (records : list opaque_record)
    (net : network) : network :=
  {| nodes := nodes net; node_id_counter := node_id_counter net;
     nodeAttributes := nodeAttributes net;
     edgeAttributes := edgeAttributes net;
     opaqueAspects := <[name := records]> (opaqueAspects net) |}.

(** Modelled from the spec: what a caller may pass as [source]: nothing,
    an object of another class (the test passes a string), or a network. *)
Inductive argument :=
| ArgNone
| ArgOther (repr : string)
| ArgNetwork (net : network).

Section Style.

(** The name of the visual-styling aspect, the class constant
    [NiceCXNetwork.CY_VISUAL_PROPERTIES] of the tests. *)
Variable CY_VISUAL_PROPERTIES : string.

(** Modelled from the spec: [applyStyleFrom(source)] of section 4.5
    (the missing [NiceCXNetwork.apply_style_from_network]). *)
Definition applyStyleFrom (target : network) (source : argument)
    : result network :=
  match source with
  | ArgNone => Fail (InvalidArgument "Object passed in is None")
  | ArgOther _ =>
      Fail (InvalidArgument "Object passed in is not NiceCXNetwork")
  | ArgNetwork src =>
      match opaqueAspects src !! CY_VISUAL_PROPERTIES with
      | None => Fail (NoStyleFound "No visual style found in network")
      | Some records =>
          match normalize_style records with
          | Ok bundles =>
              Ok (addOpaqueAspect CY_VISUAL_PROPERTIES bundles target)
          | Fail e => Fail e
          end
      end
  end.

(** Modelled from the spec: the styling aspect of a network, read as the
    tests do with [get_opaque_aspect]. *)
Definition style_of (net : network) : option (list opaque_record) :=
  opaqueAspects net !! CY_VISUAL_PROPERTIES.

End Style.

(** ** Three networks with a style

    [flat_style]: a legacy aspect of five records, two of them for single
    elements.  [bundled_style]: a newer aspect of four bundles.
    [dark_style]: nine legacy records, as many as the aspect of
    [darkthemefinal.cx] has in the tests. *)
Definition entry (scope : style_scope) (key text : string) : style_entry :=
  {| applies_to := scope; properties := [(key, text)] |}.

Definition flat_style : list opaque_record :=
  [FlatEntry (entry NetworkDefault "NETWORK_BACKGROUND_PAINT" "#FFFFFF");
   FlatEntry (entry NodeDefault "NODE_FILL_COLOR" "#89D0F5");
   FlatEntry (entry (NodeSpecific 4) "NODE_FILL_COLOR" "#FF0000");
   FlatEntry (entry EdgeDefault "EDGE_WIDTH" "2.0");
   FlatEntry (entry (EdgeSpecific 7) "EDGE_WIDTH" "5.0")].

Definition bundled_style : list opaque_record :=
  [Bundle [entry NetworkDefault "NETWORK_BACKGROUND_PAINT" "#000000"];
   Bundle [entry NodeDefault "NODE_FILL_COLOR" "#333333";
           entry NodeDefault "NODE_SIZE" "35.0"];
   Bundle [entry (NodeSpecific 1) "NODE_SIZE" "70.0"];
   Bundle [entry EdgeDefault "EDGE_PAINT" "#CCCCCC"]].

Definition dark_style : list opaque_record :=
  [FlatEntry (entry NetworkDefault "NETWORK_BACKGROUND_PAINT" "#000000");
   FlatEntry (entry NodeDefault "NODE_FILL_COLOR" "#333333");
   FlatEntry (entry EdgeDefault "EDGE_PAINT" "#CCCCCC");
   FlatEntry (entry (NodeSpecific 0) "NODE_SIZE" "10.0");
   FlatEntry (entry (NodeSpecific 1) "NODE_SIZE" "20.0");
   FlatEntry (entry (NodeSpecific 2) "NODE_SIZE" "30.0");
   FlatEntry (entry (EdgeSpecific 0) "EDGE_WIDTH" "1.0");
   FlatEntry (entry (EdgeSpecific 1) "EDGE_WIDTH" "2.0");
   FlatEntry (entry (EdgeSpecific 2) "EDGE_WIDTH" "3.0")].

Definition styled (name : string) (records : list opaque_record) : network :=
  addOpaqueAspect name records empty_network.

End NiceCXNetwork.

(** * NiceCXBuilder.py: attributes, network attributes and assembly *)

Module BuilderAssembly.

Import NiceCXBuilder.

(** A CX aspect, [{aspect_name: fragments}], is a dict of JSON values. *)
Abbreviation aspect := (list (string * Client.json)).

(** [get_frag_from_list_by_key(cx, key)]: [aspect[key]] of the first
    aspect with [key in aspect], the empty list when the loop ends. *)
Fixpoint get_frag_from_list_by_key (cx : list aspect) (key : string)
    : Client.json :=
  match cx with
  | [] => Client.JArr []
  | aspect :: rest =>
      match Client.json_get key aspect with
      | Some fragments => fragments
      | None => get_frag_from_list_by_key rest key
      end
  end.

(** What the attribute methods receive as [property_of]: nothing, an
    element id, or the element dict itself (the docstrings of
    [add_node_attribute] and [add_edge_attribute] allow both), stored as
    it is. *)
Inductive property_of :=
| PoNone
| PoId (id : Z)
| PoDict (element : aspect).

(** The attribute dict [{'po': .., 'n': .., 'v': .., 'd': ..}]; ['d'] is
    set only for a truthy [type]. *)
Record attribute := Attribute {
  attr_po : property_of;
  attr_n : option string;
  attr_v : Client.json;
  attr_d : option string
}.

(** [add_node_attribute(property_of, name, value, type)] and
    [add_edge_attribute(property_of, name, values, type)], on the
    inventory list of the method. *)
Definition add_attribute (inventory : list attribute)
    (property_of : property_of) (name : option string)
    (value : Client.json) (type : option string) : list attribute :=
  inventory ++ [{| attr_po := property_of; attr_n := name; attr_v := value;
                   attr_d := keep_truthy type |}].

(** The network attribute dict [{'n': .., 'v': .., 'd': ..}]. *)
Record network_attribute := NetworkAttribute {
  na_n : option string;
  na_v : Client.json;
  na_d : option string
}.

(** [set_name(network_name)] and [add_network_attribute(name, values,
    type)], on [network_attribute_inventory]. *)
Definition set_name (inventory : gmap (option string) network_attribute)
    (network_name : Client.json) : gmap (option string) network_attribute :=
  <[Some "name" := {| na_n := Some "name"; na_v := network_name;
                      na_d := Some "string" |}]> inventory.

Definition add_network_attribute
    (inventory : gmap (option string) network_attribute)
    (name : option string) (values : Client.json) (type : option string)
    : gmap (option string) network_attribute :=
  <[name := {| na_n := name; na_v := values; na_d := keep_truthy type |}]>
    inventory.

Inductive network_attribute_call :=
| SetName (network_name : Client.json)
| AddNetworkAttribute (name : option string) (values : Client.json)
                      (type : option string).

Definition run_network_attribute_call
    (inventory : gmap (option string) network_attribute)
    (c : network_attribute_call) : gmap (option string) network_attribute :=
  match c with
  | SetName network_name => set_name inventory network_name
  | AddNetworkAttribute name values type =>
      add_network_attribute inventory name values type
  end.

(** The key a call writes, and the dict it writes there. *)
Definition call_key (c : network_attribute_call) : option string :=
  match c with
  | SetName _ => Some "name"
  | AddNetworkAttribute name _ _ => name
  end.

Definition call_entry (c : network_attribute_call) : network_attribute :=
  match c with
  | SetName network_name =>
      {| na_n := Some "name"; na_v := network_name; na_d := Some "string" |}
  | AddNetworkAttribute name values type =>
      {| na_n := name; na_v := values; na_d := keep_truthy type |}
  end.

(** ** Assembly

    The part of the network object that the builder writes itself: the
    dicts [nodes], [edges], [nodeAttributes] and [edgeAttributes] of
    [self.nice_cx].  A key of the attribute dicts is [None] or an id. *)
Record cx_network := CX {
  nodes : gmap Z node;
  nodeAttributes : gmap (option Z) (list attribute);
  edges : gmap Z edge;
  edgeAttributes : gmap (option Z) (list attribute)
}.

Definition new_cx : cx_network :=
  {| nodes := ∅; nodeAttributes := ∅; edges := ∅; edgeAttributes := ∅ |}.

(** The dict key a [property_of] makes: a dict is not hashable. *)
Definition hash_key (po : property_of) : option (option Z) :=
  match po with
  | PoNone => Some None
  | PoId id => Some (Some id)
  | PoDict _ => None
  end.

(** A loop of the assembly either runs to its end or stops with the
    [TypeError] of an unhashable key, at the state it has reached. *)
Inductive assembled (A : Type) :=
| Done (a : A)
| TypeError (reached : A).
Arguments Done {A} a.
Arguments TypeError {A} reached.

(** The body of the two attribute loops of [get_nice_cx], which is also
    the body of [_add_node_attribute_from_fragment] and of
    [_add_edge_attribute_from_fragment]: a new list for an owner without
    one, then the append. *)
Definition add_attribute_from_fragment
    (attrs : gmap (option Z) (list attribute)) (fragment : attribute)
    : option (gmap (option Z) (list attribute)) :=
  match hash_key (attr_po fragment) with
  | Some property_of =>
      Some (<[property_of := default [] (attrs !! property_of) ++ [fragment]]>
              attrs)
  | None => None
  end.

Fixpoint assemble_attributes (inventory : list attribute)
    (attrs : gmap (option Z) (list attribute))
    : assembled (gmap (option Z) (list attribute)) :=
  match inventory with
  | [] => Done attrs
  | a :: rest =>
      match add_attribute_from_fragment attrs a with
      | Some attrs' => assemble_attributes rest attrs'
      | None => TypeError attrs
      end
  end.

(** [for k, v in self.node_inventory.items(): nodes[v.get('@id')] = v] and
    [for k, v in self.edge_inventory.items(): edges[k] = v].  The loops
    visit the items in the order of insertion, which the inventories of
    the embedding do not record: the items are an argument. *)
Definition assemble_nodes (items : list (option string * node))
    (nodes : gmap Z node) : gmap Z node :=
  foldl (λ nodes kv, <[node_id kv.2 := kv.2]> nodes) nodes items.

Definition assemble_edges (items : list (Z * edge)) (edges : gmap Z edge)
    : gmap Z edge :=
  foldl (λ edges kv, <[kv.1 := kv.2]> edges) edges items.

(** The four loops of [get_nice_cx] on nodes, node attributes, edges and
    edge attributes, in that order.  (The calls before and after them,
    [set_context], [add_network_attribute] and [add_opaque_aspect], are
    methods of the network class.) *)
Definition assemble_inventories
    (node_items : list (option string * node))
    (node_attribute_inventory : list attribute)
    (edge_items : list (Z * edge))
    (edge_attribute_inventory : list attribute)
    (cx : cx_network) : assembled cx_network :=
  let nodes' := assemble_nodes node_items (nodes cx) in
  match assemble_attributes node_attribute_inventory (nodeAttributes cx) with
  | TypeError attrs =>
      TypeError {| nodes := nodes'; nodeAttributes := attrs;
                   edges := edges cx; edgeAttributes := edgeAttributes cx |}
  | Done node_attrs =>
      let edges' := assemble_edges edge_items (edges cx) in
      match assemble_attributes edge_attribute_inventory
              (edgeAttributes cx) with
      | TypeError attrs =>
          TypeError {| nodes := nodes'; nodeAttributes := node_attrs;
                       edges := edges'; edgeAttributes := attrs |}
      | Done edge_attrs =>
          Done {| nodes := nodes'; nodeAttributes := node_attrs;
                  edges := edges'; edgeAttributes := edge_attrs |}
      end
  end.

(** Whether a call is [add_edge], and whether it leaves the edge id to
    the builder's counter. *)
Definition is_add_edge (c : call) : bool :=
  match c with
  | AddEdge _ _ _ _ => true
  | AddNode _ _ _ _ => false
  end.

Definition leaves_edge_id (c : call) : bool :=
  match c with
  | AddEdge _ _ _ id => bool_decide (id = None)
  | AddNode _ _ _ _ => true
  end.

(** The attributes of an inventory that go to the owner key [k]. *)
Definition owned_by (k : option Z) (inventory : list attribute)
    : list attribute :=
  List.filter (λ a, bool_decide (hash_key (attr_po a) = Some k)) inventory.

(** The items of an inventory, in some order. *)
Definition lists_items {K A} `{Countable K} (items : list (K * A))
    (inventory : gmap K A) : Prop :=
  items ≡ₚ map_to_list inventory.

End BuilderAssembly.

(** * client.py: the constructor and the requests of [Ndex2] *)

Module Ndex2.

(** [needle in s] on strings, and the truth value of a JSON value. *)
Fixpoint str_in (needle s : string) : bool :=
  String.prefix needle s
  || match s with
     | EmptyString => false
     | String _ rest => str_in needle rest
     end.

Definition truthy_json (j : option Client.json) : bool :=
  match j with
  | None | Some Client.JNull => false
  | Some (Client.JBool b) => b
  | Some (Client.JInt z) => negb (z =? 0)
  | Some (Client.JStr s) => negb (String.eqb s "")
  | Some (Client.JArr items) => negb (length items =? 0)%nat
  | Some (Client.JObj entries) => negb (length entries =? 0)%nat
  end.

(** [self.version]: the float [1.3] the constructor starts with, or a
    string. *)
Inductive version :=
| Float13
| Version (s : string).

(** [self.version == "2.0"] *)
Definition is_2_0 (v : version) : bool :=
  match v with
  | Version s => String.eqb s "2.0"
  | Float13 => false
  end.

(** The fields of a client that the methods below read; [auth] is
    [self.s.auth], [None] on a new session. *)
Record client := Client {
  version_of : version;
  host : string;
  username : option string;
  password : option string;
  user_agent : string;
  auth : option (string * string)
}.

Inductive error :=
| NDExUnauthorizedError (msg : string)
| PyException (msg : string)
| AttributeError
| KeyError
| ValueError
| HTTPError
| Propagated.

Definition DEFAULT_SERVER : string := "http://public.ndexbio.org".

(** What the status request of the constructor meets: an [HTTPError]
    of [raise_for_status], which the constructor catches; a JSON object,
    of which it reads [properties] and there [ServerVersion], a string;
    or another exception of the request or of reading the body, which it
    does not catch. *)
Inductive status_reply :=
| StatusHTTPError
| StatusData (properties : option (option string))
| StatusFailure.

(** [Ndex2.__init__(host, username, password, user_agent=..)] with
    [update_status=False]. *)
Definition init (host username password user_agent : option string)
    (reply : status_reply) : error + client :=
  let user_agent :=
    match user_agent with
    | None => ""
    | Some ua => if (0 <? String.length ua)%nat then " " +:+ ua else ua
    end in
  let host :=
    match host with
    | None => DEFAULT_SERVER
    | Some h => if negb (str_in "http" h) then "http://" +:+ h else h
    end in
  let auth :=
    if truthy_str username && truthy_str password
    then Some (default "" username, default "" password) else None in
  let made version host :=
    inr {| version_of := version; host := host; username := username;
           password := password; user_agent := user_agent; auth := auth |} in
  if str_in "localhost" host
  then made Float13 "http://localhost:8080/ndexbio-rest"
  else
    match reply with
    | StatusData (Some (Some pv)) =>
        if negb (String.prefix "2." pv)
        then inl (PyException "This release only supports NDEx 2.x server.")
        else made (Version pv) (host +:+ "/v2")
    | StatusData (Some None) | StatusData None | StatusHTTPError =>
        made (Version "1.3") (host +:+ "/rest")
    | StatusFailure => inl Propagated
    end.

(** [_require_auth()]: the exception it raises, if any. *)
Definition _require_auth (c : client) : option error :=
  match auth c with
  | Some _ => None
  | None =>
      Some (NDExUnauthorizedError "This method requires user authentication")
  end.

(** ** Responses *)

Record response := Response {
  status_code : Z;
  content_type : option string;   (* [headers['content-type']] *)
  json_body : option Client.json; (* [json()]; [None]: a [ValueError] *)
  text : string
}.

Inductive returned :=
| RetText (s : string)
| RetJson (j : Client.json)
| RetResponse (r : response).

(** [response.raise_for_status()] raises for a status from 400 to 599. *)
Definition raise_for_status (r : response) : bool :=
  (400 <=? status_code r) && (status_code r <? 600).

Definition _return_response (r : response)
    (returnfullresponse returnjsonundertry : bool) : error + returned :=
  if raise_for_status r then inl HTTPError
  else if status_code r =? 204 then inr (RetText "")
  else if returnjsonundertry then
    inr match json_body r with
        | Some result => RetJson result
        | None => RetText (text r)
        end
  else if returnfullresponse then inr (RetResponse r)
  else
    match content_type r with
    | None => inl KeyError
    | Some ct =>
        if String.eqb ct "application/json" then
          match json_body r with
          | Some result => inr (RetJson result)
          | None => inl ValueError
          end
        else inr (RetText (text r))
    end.

(** ** Requests

    A method below is taken up to the request it hands to the session:
    the verb, the URL and the body, a string as it is or the text
    [json.dumps] writes for a dict. *)
Inductive verb := PUT | POST.

Inductive payload :=
| Dumped (entries : list (string * Client.json))
| Text (s : string).

Record request := Request {
  request_verb : verb;
  request_url : string;
  request_data : payload
}.

(** [put(route, put_json)] and [post(route, post_json)]. *)
Definition put (c : client) (route : string) (put_json : payload) : request :=
  {| request_verb := PUT; request_url := host c +:+ route;
     request_data := put_json |}.

Definition post (c : client) (route : string) (post_json : payload)
    : request :=
  {| request_verb := POST; request_url := host c +:+ route;
     request_data := post_json |}.

(** The URL of [post_multipart(route, fields, query_string)]. *)
Definition post_multipart (c : client) (route : string)
    (query_string : option string) : string :=
  if truthy_str query_string
  then host c +:+ route +:+ "?" +:+ default "" query_string
  else host c +:+ route.

(** [save_cx_stream_as_new_network(cx_stream, visibility)]: the URL the
    stream is posted to. *)
Definition save_cx_stream_as_new_network (c : client)
    (visibility : option string) : error + string :=
  match _require_auth c with
  | Some e => inl e
  | None =>
      let query_string :=
        if truthy_str visibility
        then Some ("visibility=" +:+ default "" visibility) else None in
      let route := if is_2_0 (version_of c) then "/network"
                   else "/network/asCX" in
      inr (post_multipart c route query_string)
  end.

(** [save_new_network(cx, visibility)] past the checks and the status
    bundle of [Client.save_new_network]: [json.dumps] of the list in the
    store it leaves, then the upload of that stream.  The store is part
    of the outcome: the caller keeps the list. *)
Inductive upload_outcome :=
| Rejected (e : Client.exn)
| NotSerialized
| Refused (e : error)
| Posted (stream : Client.json) (url : string).

Definition save_new_network (c : client) (fuel : nat) (h : Client.heap)
    (cx : Client.val) (visibility : option string)
    : Client.heap * upload_outcome :=
  match Client.save_new_network h cx with
  | Client.Raise e => (h, Rejected e)
  | Client.Dangling => (h, NotSerialized)
  | Client.Upload h' =>
      match Client.dumps fuel h' cx with
      | None => (h', NotSerialized)
      | Some stream =>
          (h', match save_cx_stream_as_new_network c visibility with
               | inl e => Refused e
               | inr url => Posted stream url
               end)
      end
  end.

(** The argument of the methods that take a dict or its JSON text. *)
Inductive argument :=
| ArgDict (entries : list (string * Client.json))
| ArgStr (s : string)
| ArgOther.

Definition set_network_system_properties (c : client) (network_id : string)
    (network_properties : argument) : error + request :=
  match _require_auth c with
  | Some e => inl e
  | None =>
      let route := "/network/" +:+ network_id +:+ "/systemproperty" in
      match network_properties with
      | ArgDict entries => inr (put c route (Dumped entries))
      | ArgStr s => inr (put c route (Text s))
      | ArgOther =>
          inl (PyException "network_properties must be a string or a dict")
      end
  end.

Definition visibility_message : string :=
  "Ndex 2.x doesn't support setting visibility by this function. "
  +:+ "Please use make_network_public/private function to set network visibility.".

Definition update_network_profile (c : client) (network_id : string)
    (network_profile : argument) : error + request :=
  match _require_auth c with
  | Some e => inl e
  | None =>
      let send json_data :=
        if is_2_0 (version_of c)
        then inr (put c ("/network/" +:+ network_id +:+ "/profile") json_data)
        else inr (post c ("/network/" +:+ network_id +:+ "/summary") json_data)
      in
      match network_profile with
      | ArgDict entries =>
          if truthy_json (Client.json_get "visibility" entries) then
            match version_of c with
            | Float13 => inl AttributeError
            | Version v =>
                if String.prefix "2." v
                then inl (PyException visibility_message)
                else send (Dumped entries)
            end
          else send (Dumped entries)
      | ArgStr s => send (Text s)
      | ArgOther =>
          inl (PyException "network_profile must be a string or a dict")
      end
  end.

Definition make_network_public (c : client) (network_id : string)
    : error + request :=
  if is_2_0 (version_of c)
  then set_network_system_properties c network_id
         (ArgDict [("visibility", Client.JStr "PUBLIC")])
  else update_network_profile c network_id
         (ArgDict [("visibility", Client.JStr "PUBLIC")]).

Definition make_network_private (c : client) (network_id : string)
    : error + request :=
  if is_2_0 (version_of c)
  then set_network_system_properties c network_id
         (ArgDict [("visibility", Client.JStr "PRIVATE")])
  else update_network_profile c network_id
         (ArgDict [("visibility", Client.JStr "PRIVATE")]).

(** ** [delete_network]

    What one [self.delete(route)] of the loop meets: a value, or an
    exception, of which the handler reads the [errorCode] of the JSON
    content of its response.  [NoErrorCode] is a content without that
    key, [NoContent] an exception without a response or with a content
    that is no JSON: in both the handler raises itself. *)
Inductive attempt :=
| Returns (r : returned)
| Fails (errorCode : string)
| NoErrorCode
| NoContent.

Inductive deletion :=
| Deleted (r : returned)
| Reraised (errorCode : string)
| HandlerRaised
| Locked (retry : Z)
| Unauthorized (e : error).

(** [while count < retry:], with [remaining] for [retry - count]; the
    server's answers are numbered by the requests made so far, which is
    [count].  The result comes with the number of requests made. *)
Fixpoint delete_loop (server : nat → attempt) (retry : Z)
    (remaining count : nat) : deletion * nat :=
  match remaining with
  | O => (Locked retry, count)
  | S remaining' =>
      match server count with
      | Returns r => (Deleted r, S count)
      | Fails errorCode =>
          if String.prefix "NDEx_Concurrent_Modification" errorCode
          then delete_loop server retry remaining' (S count)
          else (Reraised errorCode, S count)
      | NoErrorCode | NoContent => (HandlerRaised, S count)
      end
  end.

(** [delete_network(network_id, retry)] *)
Definition delete_network (c : client) (server : nat → attempt) (retry : Z)
    : deletion * nat :=
  match _require_auth c with
  | Some e => (Unauthorized e, O)
  | None => delete_loop server retry (Z.to_nat retry) O
  end.

(** A failure that the loop answers with another attempt. *)
Definition concurrent (a : attempt) : Prop :=
  ∃ errorCode,
    a = Fails errorCode
    ∧ String.prefix "NDEx_Concurrent_Modification" errorCode = true.

End Ndex2.

(** * Properties of the builder *)

Section BuilderFacts.

Import NiceCXBuilder.

(** A name that is staged is answered from the inventory. *)
Lemma add_node_staged b name represents id data_type existing :
  node_inventory b !! name = Some existing →
  add_node b name represents id data_type = (b, node_id existing).
Proof. intros Hin. unfold add_node. by rewrite Hin. Qed.

(** After [add_node] the name is staged under the returned id. *)
Lemma add_node_stages b name represents id data_type :
  ∃ staged,
    node_inventory (add_node b name represents id data_type).1 !! name
      = Some staged
    ∧ node_id staged = (add_node b name represents id data_type).2.
Proof.
  unfold add_node. destruct (node_inventory b !! name) as [old|] eqn:Hin.
  - exists old. simpl. by rewrite Hin.
  - destruct (truthy_int id); simpl; rewrite lookup_insert_eq; eauto.
Qed.

(** A name that is not staged, without a truthy id, takes the counter. *)
Lemma add_node_fresh b name represents id data_type :
  node_inventory b !! name = None →
  truthy_int id = false →
  add_node b name represents id data_type =
    ({| node_id_counter := node_id_counter b + 1;
        edge_id_counter := edge_id_counter b;
        node_inventory :=
          <[name := {| node_id := node_id_counter b; node_n := name;
                       node_r := keep_truthy represents;
                       node_d := keep_truthy data_type |}]>
            (node_inventory b);
        edge_inventory := edge_inventory b |},
     node_id_counter b).
Proof. intros Hin Hid. unfold add_node. by rewrite Hin, Hid. Qed.

(** ** The invariants of a run *)

Lemma edges_keyed_distinct b : edges_keyed b → edge_ids_distinct b.
Proof.
  intros Hkey k1 k2 e1 e2 H1 H2 Hne.
  rewrite (Hkey _ _ H1), (Hkey _ _ H2). exact Hne.
Qed.

Lemma edges_keyed_init : edges_keyed init.
Proof. intros k e. simpl. by rewrite lookup_empty. Qed.

Lemma edges_keyed_step b c : edges_keyed b → edges_keyed (run_call b c).
Proof.
  intros Hkey. destruct c as [name represents id data_type
                             |source target interaction id]; simpl.
  - unfold add_node. destruct (node_inventory b !! name); [exact Hkey|].
    destruct (truthy_int id); exact Hkey.
  - unfold add_edge, edges_keyed. destruct id as [i|]; simpl; intros k e;
      rewrite lookup_insert; case_decide; intros He; simplify_eq; auto.
Qed.

Lemma edges_keyed_run cs : ∀ b, edges_keyed b → edges_keyed (run_calls b cs).
Proof.
  induction cs as [|c cs IH]; intros b Hkey; [exact Hkey|].
  apply IH, edges_keyed_step, Hkey.
Qed.

Lemma nodes_inv_init : nodes_counted init ∧ node_ids_distinct init.
Proof.
  split; [split; [simpl; lia|]|].
  - intros k nd Hk. simpl in Hk. by rewrite lookup_empty in Hk.
  - intros k1 k2 n1 n2 Hk. simpl in Hk. by rewrite lookup_empty in Hk.
Qed.

Lemma nodes_inv_step b c :
  allocates c = true →
  nodes_counted b ∧ node_ids_distinct b →
  nodes_counted (run_call b c) ∧ node_ids_distinct (run_call b c).
Proof.
  intros Halloc [[Hpos Hcnt] Hdist].
  destruct c as [name represents id data_type
                |source target interaction id]; simpl in *.
  - apply negb_true_iff in Halloc.
    destruct (node_inventory b !! name) as [old|] eqn:Hin.
    { rewrite (add_node_staged _ _ _ _ _ _ Hin). simpl.
      split; [split|]; assumption. }
    rewrite (add_node_fresh _ _ _ _ _ Hin Halloc).
    unfold nodes_counted, node_ids_distinct. simpl.
    split; [split; [lia|]|].
    + intros k nd. rewrite lookup_insert. case_decide.
      * intros [= <-]. simpl. lia.
      * intros Hk. specialize (Hcnt _ _ Hk). lia.
    + intros k1 k2 n1 n2. rewrite !lookup_insert.
      repeat case_decide; intros H1 H2 Hne; simplify_eq; simpl.
      * apply Hcnt in H2. lia.
      * apply Hcnt in H1. lia.
      * eapply Hdist; eauto.
  - unfold add_edge. destruct id; simpl; (split; [split|]; assumption).
Qed.

Lemma nodes_inv_run cs :
  ∀ b, forallb allocates cs = true →
       nodes_counted b ∧ node_ids_distinct b →
       nodes_counted (run_calls b cs) ∧ node_ids_distinct (run_calls b cs).
Proof.
  induction cs as [|c cs IH]; intros b Hall Hinv; [exact Hinv|].
  simpl in Hall. apply andb_true_iff in Hall as [Hc Hcs].
  apply IH; [exact Hcs|]. by apply nodes_inv_step.
Qed.

(** ** Identifiers *)

(** C8, as stated, fails: after a call with the explicit node id [1]
    between two calls that leave the id to the counter, the nodes staged
    for ["y"] and ["z"] both have the id [1]. *)
Lemma staged_node_ids_collide :
  ¬ node_ids_distinct (run_calls init mixed_calls).
Proof.
  intros Hdist.
  apply (Hdist (Some "y") (Some "z")
           (Node 1 (Some "y") None None) (Node 1 (Some "z") None None));
    [vm_compute; reflexivity | vm_compute; reflexivity | discriminate
    | reflexivity].
Qed.

(** C8, amended: for every sequence of [add_node] and [add_edge] calls on
    a new builder, the staged edge ids are pairwise distinct, whatever
    ids the calls supply, every staged edge being stored under its own id;
    and the staged node ids are pairwise distinct when every [add_node]
    call leaves the id to the counter. *)
Theorem staged_ids_distinct (cs : list call) :
  edges_keyed (run_calls init cs)
  ∧ edge_ids_distinct (run_calls init cs)
  ∧ (forallb allocates cs = true → node_ids_distinct (run_calls init cs)).
Proof.
  assert (Hkey : edges_keyed (run_calls init cs))
    by apply edges_keyed_run, edges_keyed_init.
  split; [exact Hkey|]. split.
  - by apply edges_keyed_distinct.
  - intros Hall. apply (nodes_inv_run cs init Hall nodes_inv_init).
Qed.

Lemma staged_ids_distinct_witness :
  let cs := [AddNode (Some "x") (Some "X") None None;
             AddEdge (EpId 0) (EpId 1) None (Some 7);
             AddNode (Some "y") None (Some 0) None;
             AddEdge (EpId 1) (EpId 0) (Some "binds") None;
             AddNode (Some "x") None None None] in
  forallb allocates cs = true
  ∧ edge_ids_distinct (run_calls init cs)
  ∧ node_ids_distinct (run_calls init cs).
Proof.
  intros cs. split; [reflexivity|]. split.
  - exact (proj1 (proj2 (staged_ids_distinct cs))).
  - exact (proj2 (proj2 (staged_ids_distinct cs)) eq_refl).
Defined.

(** ** The explicit id [0] *)

Lemma add_edge_explicit b source target interaction i :
  (add_edge b source target interaction (Some i)).2 = i
  ∧ edge_id_counter (add_edge b source target interaction (Some i)).1
    = edge_id_counter b
  ∧ ∃ e, edge_inventory (add_edge b source target interaction (Some i)).1
           !! i = Some e
         ∧ edge_id e = i.
Proof.
  unfold add_edge. simpl. repeat split.
  eexists. rewrite lookup_insert_eq. split; reflexivity.
Qed.

(** C10: [add_node] treats the explicit id [0] as no id: the call is the
    call without id, and for a name not yet staged it returns the node
    counter, which need not be [0]; [add_edge] honors the explicit id
    [0]: it returns [0], stages the edge under [0] and leaves the edge
    counter alone. *)
Theorem explicit_id_zero b name represents data_type
    source target interaction :
  add_node b name represents (Some 0) data_type
    = add_node b name represents None data_type
  ∧ (node_inventory b !! name = None →
     (add_node b name represents (Some 0) data_type).2 = node_id_counter b
     ∧ node_id_counter (add_node b name represents (Some 0) data_type).1
       = node_id_counter b + 1)
  ∧ (∃ b' name',
       (add_node b' name' represents (Some 0) data_type).2 ≠ 0)
  ∧ (add_edge b source target interaction (Some 0)).2 = 0
  ∧ edge_id_counter (add_edge b source target interaction (Some 0)).1
    = edge_id_counter b
  ∧ ∃ e, edge_inventory (add_edge b source target interaction (Some 0)).1
           !! 0 = Some e
         ∧ edge_id e = 0.
Proof.
  split; [reflexivity|]. split; [|split].
  - intros Hnew.
    by rewrite (add_node_fresh b name represents (Some 0) data_type
                  Hnew eq_refl).
  - exists (run_call init (AddNode (Some "x") None None None)), (Some "y").
    rewrite add_node_fresh; [|reflexivity|reflexivity].
    vm_compute. discriminate.
  - apply add_edge_explicit.
Qed.

Lemma explicit_id_zero_witness :
  let b := run_calls init
             [AddNode (Some "x") None None None;
              AddEdge (EpId 0) (EpId 0) None None] in
  node_inventory b !! Some "y" = None
  ∧ (add_node b (Some "y") None (Some 0) None).2 = 1
  ∧ (add_edge b (EpId 0) (EpId 0) None (Some 0)).2 = 0.
Proof.
  intros b.
  pose proof (explicit_id_zero b (Some "y") None None (EpId 0) (EpId 0) None)
    as (_ & Hnode & _ & Hedge & _).
  assert (Hnew : node_inventory b !! Some "y" = None) by reflexivity.
  split; [exact Hnew|]. split; [|exact Hedge].
  destruct (Hnode Hnew) as [-> _]. reflexivity.
Defined.

End BuilderFacts.

(** * Properties of the client *)

Section ClientFacts.

Import Client.

(** ** The trailing status record *)

(** Reads the [k]-th object appended to a store of [r] objects, under an
    update of an older position. *)
Local Ltac read_appended r k :=
  rewrite list_lookup_insert_ne by lia;
  rewrite lookup_app_r by (unfold r; lia);
  replace (_ - length _)%nat with k by (unfold r; lia);
  reflexivity.

(** The three new objects of [append_status_bundle], and the objects it
    leaves alone. *)
Lemma append_status_bundle_spec (h : heap) l items :
  h !! l = Some (OList items) →
  let h' := append_status_bundle h l items in
  let r := length h in
  h' !! l = Some (OList (items ++ [VRef (r + 2)%nat]))
  ∧ h' !! r = Some success_record
  ∧ h' !! (r + 1)%nat = Some (OList [VRef r])
  ∧ h' !! (r + 2)%nat = Some (ODict [("status", VRef (r + 1)%nat)])
  ∧ ∀ i, i ≠ l → (i < r)%nat → h' !! i = h !! i.
Proof.
  intros Hl h' r. pose proof (lookup_lt_Some _ _ _ Hl) as Hlt.
  unfold h', append_status_bundle. fold r.
  repeat split.
  - apply list_lookup_insert_eq. rewrite length_app. lia.
  - read_appended r 0%nat.
  - read_appended r 1%nat.
  - read_appended r 2%nat.
  - intros i Hne Hi. rewrite list_lookup_insert_ne by congruence.
    apply lookup_app_l. exact Hi.
Qed.

Lemma append_success_record_spec (h : heap) s recs :
  h !! s = Some (OList recs) →
  let h' := append_success_record h s recs in
  let r := length h in
  h' !! s = Some (OList (recs ++ [VRef r]))
  ∧ h' !! r = Some success_record
  ∧ ∀ i, i ≠ s → (i < r)%nat → h' !! i = h !! i.
Proof.
  intros Hs h' r. pose proof (lookup_lt_Some _ _ _ Hs) as Hlt.
  unfold h', append_success_record. fold r.
  repeat split.
  - apply list_lookup_insert_eq. rewrite length_app. lia.
  - read_appended r 0%nat.
  - intros i Hne Hi. rewrite list_lookup_insert_ne by congruence.
    apply lookup_app_l. exact Hi.
Qed.

(** On a list that ends with a dict the function comes down to the branch
    on the status of that dict. *)
Lemma save_new_network_dict (h : heap) l items d entries :
  h !! l = Some (OList items) →
  last items = Some (VRef d) →
  h !! d = Some (ODict entries) →
  save_new_network h (VRef l) = ensure_status h l items entries.
Proof.
  intros Hl Hlast Hd. unfold save_new_network. rewrite Hl, Hlast, Hd.
  by destruct items.
Qed.

Lemma dict_get_status_bundle v :
  dict_get "status" [("status", v)] = v.
Proof. reflexivity. Qed.

(** The last element has no status: the bundle is appended to [cx]. *)
Lemma status_absent (h : heap) l items d entries :
  h !! l = Some (OList items) →
  last items = Some (VRef d) →
  h !! d = Some (ODict entries) →
  dict_get "status" entries = VNone →
  let h' := append_status_bundle h l items in
  save_new_network h (VRef l) = Upload h'
  ∧ trailing_status h' (VRef l) = Some [VRef (length h)]
  ∧ save_new_network h' (VRef l) = Upload h'.
Proof.
  intros Hl Hlast Hd Hst h'.
  destruct (append_status_bundle_spec h l items Hl) as (Al & Ar & As & Ab & _).
  fold h' in Al, Ar, As, Ab. split; [|split].
  - rewrite (save_new_network_dict _ _ _ _ _ Hl Hlast Hd).
    unfold ensure_status. by rewrite Hst.
  - unfold trailing_status.
    by rewrite Al, last_snoc, Ab, dict_get_status_bundle, As.
  - rewrite (save_new_network_dict _ _ _ _ _ Al (last_snoc _ _) Ab).
    unfold ensure_status. by rewrite dict_get_status_bundle, As.
Qed.

(** The last element has an empty status list: the record is appended to
    that list, [cx] and its last element stay the objects they were. *)
Lemma status_empty (h : heap) l items d entries s :
  h !! l = Some (OList items) →
  last items = Some (VRef d) →
  h !! d = Some (ODict entries) →
  dict_get "status" entries = VRef s →
  h !! s = Some (OList []) →
  let h' := append_success_record h s [] in
  save_new_network h (VRef l) = Upload h'
  ∧ h' !! l = Some (OList items)
  ∧ h' !! d = Some (ODict entries)
  ∧ trailing_status h' (VRef l) = Some [VRef (length h)]
  ∧ save_new_network h' (VRef l) = Upload h'.
Proof.
  intros Hl Hlast Hd Hst Hs h'.
  destruct (append_success_record_spec h s [] Hs) as (As & Ar & Aother).
  fold h' in As, Ar, Aother. simpl in As.
  assert (Hsl : l ≠ s).
  { intros ->. rewrite Hs in Hl. injection Hl as <-. discriminate. }
  assert (Hsd : d ≠ s) by (intros ->; congruence).
  assert (Al : h' !! l = Some (OList items)).
  { rewrite Aother; [exact Hl | exact Hsl | by eapply lookup_lt_Some]. }
  assert (Ad : h' !! d = Some (ODict entries)).
  { rewrite Aother; [exact Hd | exact Hsd | by eapply lookup_lt_Some]. }
  repeat split; try assumption.
  - rewrite (save_new_network_dict _ _ _ _ _ Hl Hlast Hd).
    unfold ensure_status. by rewrite Hst, Hs.
  - unfold trailing_status. by rewrite Al, Hlast, Ad, Hst, As.
  - rewrite (save_new_network_dict _ _ _ _ _ Al Hlast Ad).
    unfold ensure_status. by rewrite Hst, As.
Qed.

(** The last element has a status list that holds records: nothing is
    added, however many records there are. *)
Lemma status_present (h : heap) l items d entries s recs :
  h !! l = Some (OList items) →
  last items = Some (VRef d) →
  h !! d = Some (ODict entries) →
  dict_get "status" entries = VRef s →
  h !! s = Some (OList recs) →
  recs ≠ [] →
  save_new_network h (VRef l) = Upload h
  ∧ trailing_status h (VRef l) = Some recs.
Proof.
  intros Hl Hlast Hd Hst Hs Hne. split.
  - rewrite (save_new_network_dict _ _ _ _ _ Hl Hlast Hd).
    unfold ensure_status. rewrite Hst, Hs. by destruct recs.
  - unfold trailing_status. by rewrite Hl, Hlast, Hd, Hst, Hs.
Qed.

(** ** From the store to the stream

    What [trailing_status] reads in the store is what closes the JSON
    text: when [json.dumps] succeeds, the last element of its array is an
    object whose ["status"] holds as many records. *)

Lemma dumps_entries_get fuel (h : heap) key s :
  ∀ entries jes,
    mapM (λ kv : string * val, pair kv.1 <$> dumps fuel h kv.2) entries
      = Some jes →
    dict_get key entries = VRef s →
    ∃ js, json_get key jes = Some js ∧ dumps fuel h (VRef s) = Some js.
Proof.
  induction entries as [|[k v] entries IH]; intros jes Hmap Hget;
    [discriminate|].
  apply mapM_Some in Hmap. inversion Hmap as [|? jkv ? jes' Hkv Hrest]; subst.
  simpl in Hkv, Hget. unfold json_get. simpl.
  destruct (dumps fuel h v) as [jv|] eqn:Hv; [|discriminate].
  simpl in Hkv. injection Hkv as <-. simpl.
  destruct (String.eqb k key) eqn:Hk.
  - subst v. eauto.
  - apply mapM_Some in Hrest. apply (IH _ Hrest Hget).
Qed.

Lemma dumps_trailing_status fuel (h : heap) cx j recs :
  dumps fuel h cx = Some j →
  trailing_status h cx = Some recs →
  ∃ jrecs f, json_trailing_status j = Some jrecs
             ∧ mapM (dumps f h) recs = Some jrecs
             ∧ length jrecs = length recs.
Proof.
  intros Hdumps Htrail. unfold trailing_status in Htrail.
  destruct cx as [| | | |l]; try discriminate.
  destruct (h !! l) as [[items|]|] eqn:Hl; try discriminate.
  destruct (last items) as [[| | | |d]|] eqn:Hlast; try discriminate.
  destruct (h !! d) as [[|entries]|] eqn:Hd; try discriminate.
  destruct (dict_get "status" entries) as [| | | |s] eqn:Hst; try discriminate.
  destruct (h !! s) as [[recs'|]|] eqn:Hs; try discriminate.
  injection Htrail as ->.
  destruct fuel as [|f1]; [discriminate|]. simpl in Hdumps. rewrite Hl in Hdumps.
  destruct (mapM (dumps f1 h) items) as [js|] eqn:Hitems; [|discriminate].
  injection Hdumps as <-.
  apply last_Some in Hlast as [front ->].
  apply mapM_Some, Forall2_app_inv_l in Hitems
    as (jfront & jlast & _ & Hlast & ->).
  inversion Hlast as [|? jd ? ? Hjd Hnil]; subst. inversion Hnil; subst.
  destruct f1 as [|f2]; [discriminate|]. simpl in Hjd. rewrite Hd in Hjd.
  destruct (mapM _ entries) as [jes|] eqn:Hentries; [|discriminate].
  injection Hjd as <-.
  destruct (dumps_entries_get f2 h "status" s entries jes Hentries Hst)
    as (jst & Hget & Hjst).
  destruct f2 as [|f3]; [discriminate|]. simpl in Hjst. rewrite Hs in Hjst.
  destruct (mapM (dumps f3 h) recs) as [jrecs|] eqn:Hrecs; [|discriminate].
  injection Hjst as <-.
  exists jrecs, f3. split; [|split; [exact Hrecs|]].
  - unfold json_trailing_status. by rewrite last_snoc, Hget.
  - apply mapM_Some, Forall2_length in Hrecs. congruence.
Qed.

(** ** Serializable networks stay serializable

    [json.dumps] gives a text when the structure is finite: some fuel
    is enough.  More fuel gives the same text. *)
Lemma dumps_mono (h : heap) :
  ∀ n v j, dumps n h v = Some j → ∀ m, (n ≤ m)%nat → dumps m h v = Some j.
Proof.
  induction n as [|n IH]; intros v j Hd m Hle;
    destruct v as [| | | |l];
    try (simpl in Hd; destruct m; simpl; congruence).
  destruct m as [|m]; [lia|]. simpl in *.
  destruct (h !! l) as [[items|entries]|]; [| |discriminate].
  - destruct (mapM (dumps n h) items) as [js|] eqn:Hitems; [|discriminate].
    apply mapM_Some in Hitems.
    assert (mapM (dumps m h) items = Some js) as ->; [|exact Hd].
    apply mapM_Some. eapply Forall2_impl; [exact Hitems|].
    intros x y Hxy. apply (IH _ _ Hxy). lia.
  - destruct (mapM _ entries) as [jes|] eqn:Hentries; [|discriminate].
    apply mapM_Some in Hentries.
    assert (mapM (λ kv : string * val, pair kv.1 <$> dumps m h kv.2) entries
            = Some jes) as ->; [|exact Hd].
    apply mapM_Some. eapply Forall2_impl; [exact Hentries|].
    intros [k x] jkv Hkv. simpl in *.
    destruct (dumps n h x) as [jx|] eqn:Hx; [|discriminate].
    by rewrite (IH _ _ Hx m ltac:(lia)).
Qed.

(** A number, a string, a boolean and [None] have a text in every store. *)
Lemma dumps_scalar n (h : heap) v :
  (∀ l, v ≠ VRef l) → is_Some (dumps n h v).
Proof.
  intros Hscalar. destruct v, n; simpl; eauto; by destruct (Hscalar l).
Qed.

(** Two texts of one value are one text. *)
Lemma dumps_agree (h : heap) n m v j j' :
  dumps n h v = Some j → dumps m h v = Some j' → j = j'.
Proof.
  intros Hn Hm.
  pose proof (dumps_mono h _ _ _ Hn (n `max` m)%nat ltac:(lia)) as Hn'.
  pose proof (dumps_mono h _ _ _ Hm (n `max` m)%nat ltac:(lia)) as Hm'.
  congruence.
Qed.

(** What is written for a part of an object is smaller than what is
    written for the object: a serializable object is no part of itself.
    So the text of the parts of the object at [l] is the same in every
    store that differs at [l] and at new positions only. *)
Lemma dumps_frame (h h' : heap) l n0 j0 :
  dumps n0 h (VRef l) = Some j0 →
  (∀ i, i ≠ l → (i < length h)%nat → h' !! i = h !! i) →
  ∀ n v j, dumps n h v = Some j →
           (json_size j < json_size j0)%nat →
           dumps n h' v = Some j.
Proof.
  intros H0 Hsame. induction n as [|n IH]; intros v j Hd Hsize;
    destruct v as [| | | |i]; try exact Hd.
  destruct (decide (i = l)) as [->|Hne].
  { rewrite (dumps_agree _ _ _ _ _ _ Hd H0) in Hsize. lia. }
  simpl in Hd |- *. destruct (h !! i) as [o|] eqn:Hi; [|discriminate].
  rewrite (Hsame i Hne (lookup_lt_Some _ _ _ Hi)), Hi.
  destruct o as [items|entries].
  - destruct (mapM (dumps n h) items) as [js|] eqn:Hitems; [|discriminate].
    injection Hd as <-. simpl in Hsize. apply mapM_Some in Hitems.
    assert (mapM (dumps n h') items = Some js) as ->; [|reflexivity].
    apply mapM_Some. clear Hi.
    induction Hitems as [|x y items js Hxy _ IHitems]; constructor;
      simpl in Hsize; [apply IH; [exact Hxy | lia] | apply IHitems; lia].
  - destruct (mapM _ entries) as [jes|] eqn:Hentries; [|discriminate].
    injection Hd as <-. simpl in Hsize. apply mapM_Some in Hentries.
    assert (mapM (λ kv : string * val, pair kv.1 <$> dumps n h' kv.2) entries
            = Some jes) as ->; [|reflexivity].
    apply mapM_Some. clear Hi.
    induction Hentries as [|[k x] jkv entries jes Hkv _ IHentries];
      constructor; simpl in *.
    + destruct (dumps n h x) as [jx|] eqn:Hx; [|discriminate].
      injection Hkv as <-. simpl in Hsize.
      by rewrite (IH _ _ Hx ltac:(lia)).
    + apply IHentries. lia.
Qed.

Lemma dumps_frame_items (h h' : heap) l n0 j0 n :
  dumps n0 h (VRef l) = Some j0 →
  (∀ i, i ≠ l → (i < length h)%nat → h' !! i = h !! i) →
  ∀ items js,
    Forall2 (λ x y, dumps n h x = Some y) items js →
    (list_sum (List.map json_size js) < json_size j0)%nat →
    Forall2 (λ x y, dumps n h' x = Some y) items js.
Proof.
  intros H0 Hsame items js Hitems.
  induction Hitems as [|x y items js Hxy _ IH]; intros Hsum;
    constructor; simpl in Hsum.
  - apply (dumps_frame h h' l n0 j0 H0 Hsame); [exact Hxy | lia].
  - apply IH. lia.
Qed.

(** A serializable value stays serializable when one object of the store
    is replaced by a serializable one. *)
Lemma dumps_updated (h h' : heap) s k js :
  (∀ i, i ≠ s → (i < length h)%nat → h' !! i = h !! i) →
  dumps k h' (VRef s) = Some js →
  ∀ n v j, dumps n h v = Some j → is_Some (dumps (n + k) h' v).
Proof.
  intros Hsame Hs. induction n as [|n IH]; intros v j Hd;
    destruct v as [| | | |i];
    try (apply dumps_scalar; discriminate).
  destruct (decide (i = s)) as [->|Hne].
  { exists js. apply (dumps_mono h' _ _ _ Hs). lia. }
  simpl in Hd |- *. destruct (h !! i) as [o|] eqn:Hi; [|discriminate].
  rewrite (Hsame i Hne (lookup_lt_Some _ _ _ Hi)), Hi.
  destruct o as [items|entries].
  - destruct (mapM (dumps n h) items) as [js0|] eqn:Hitems; [|discriminate].
    apply mapM_Some in Hitems. apply fmap_is_Some, mapM_is_Some.
    clear Hi Hd. induction Hitems as [|x y items js0 Hxy _ IHitems];
      constructor; [exact (IH _ _ Hxy) | exact IHitems].
  - destruct (mapM _ entries) as [jes|] eqn:Hentries; [|discriminate].
    apply mapM_Some in Hentries. apply fmap_is_Some, mapM_is_Some.
    clear Hi Hd.
    induction Hentries as [|[k' x] jkv entries jes Hkv _ IHentries];
      constructor; [|exact IHentries].
    simpl in *. destruct (dumps n h x) as [jx|] eqn:Hx; [|discriminate].
    apply fmap_is_Some, (IH _ _ Hx).
Qed.

(** The text of the success record, wherever it is in the store. *)
Lemma dumps_success_record (h : heap) r f jr :
  h !! r = Some success_record →
  dumps f h (VRef r) = Some jr →
  jr = success_json.
Proof.
  intros Hr Hjr. apply (dumps_agree h f 1 (VRef r)); [exact Hjr|].
  simpl. by rewrite Hr.
Qed.

(** Without status: the text of the uploaded network is the text of the
    network it was, followed by the status bundle. *)
Lemma status_absent_dumps (h : heap) l items n0 j0 :
  h !! l = Some (OList items) →
  dumps n0 h (VRef l) = Some j0 →
  ∃ js0, j0 = JArr js0
         ∧ dumps (n0 + 3) (append_status_bundle h l items) (VRef l)
           = Some (JArr (js0 ++ [status_json])).
Proof.
  intros Hl H0.
  destruct (append_status_bundle_spec h l items Hl)
    as (Al & Ar & As & Ab & Aother).
  destruct n0 as [|n1]; [discriminate|].
  pose proof H0 as Hitems. simpl in Hitems. rewrite Hl in Hitems.
  destruct (mapM (dumps n1 h) items) as [js0|] eqn:Hjs0; [|discriminate].
  injection Hitems as <-. exists js0. split; [reflexivity|].
  simpl. rewrite Al. apply fmap_Some. eexists. split; [|reflexivity].
  apply mapM_Some, Forall2_app.
  - apply mapM_Some in Hjs0.
    apply (dumps_frame_items h _ l _ _ n1 H0 Aother) in Hjs0; [|simpl; lia].
    eapply Forall2_impl; [exact Hjs0|].
    intros x y Hxy. apply (dumps_mono _ _ _ _ Hxy). lia.
  - constructor; [|constructor].
    apply (dumps_mono _ 3); [|lia]. simpl. rewrite Ab. simpl. rewrite As.
    simpl. by rewrite Ar.
Qed.

(** With an empty status list: the uploaded network has a text, and the
    text ends with the status bundle of the one success record. *)
Lemma status_empty_dumps (h : heap) l items d entries s n0 j0 :
  h !! l = Some (OList items) →
  last items = Some (VRef d) →
  h !! d = Some (ODict entries) →
  dict_get "status" entries = VRef s →
  h !! s = Some (OList []) →
  dumps n0 h (VRef l) = Some j0 →
  ∃ j, dumps (n0 + 2) (append_success_record h s []) (VRef l) = Some j
       ∧ json_trailing_status j = Some [success_json].
Proof.
  intros Hl Hlast Hd Hst Hs H0.
  destruct (append_success_record_spec h s [] Hs) as (As & Ar & Aother).
  destruct (status_empty h l items d entries s Hl Hlast Hd Hst Hs)
    as (_ & _ & _ & Htrail & _).
  set (h' := append_success_record h s []) in *. simpl in As.
  assert (Hs' : dumps 2 h' (VRef s) = Some (JArr [success_json])).
  { simpl. rewrite As. simpl. by rewrite Ar. }
  destruct (dumps_updated h h' s 2 _ Aother Hs' _ _ _ H0) as [j Hj].
  exists j. split; [exact Hj|].
  destruct (dumps_trailing_status _ _ _ _ _ Hj Htrail)
    as (jrecs & f & Hjrecs & Hmap & _).
  rewrite Hjrecs. f_equal.
  apply mapM_Some in Hmap. inversion Hmap as [|? jr ? ? Hjr Hnil]; subst.
  inversion Hnil; subst. f_equal. exact (dumps_success_record _ _ _ _ Ar Hjr).
Qed.

(** C4, as stated, fails: a network whose last element is a status bundle
    of two records is uploaded as it is, and its serialization ends with
    the two records. *)
Lemma two_status_records_kept :
  save_new_network two_records_heap (VRef 0) = Upload two_records_heap
  ∧ trailing_status two_records_heap (VRef 0) = Some [VRef 3; VRef 4]
  ∧ (json_trailing_status <$> dumps 4 two_records_heap (VRef 0))
    = Some (Some [JObj [("error", JStr ""); ("success", JBool true)];
                  JObj [("error", JStr ""); ("success", JBool true)]])
  ∧ ¬ (∃ h' recs,
         save_new_network two_records_heap (VRef 0) = Upload h'
         ∧ trailing_status h' (VRef 0) = Some recs
         ∧ length recs = 1%nat).
Proof.
  repeat split.
  intros (h' & recs & Hsave & Htrail & Hlen).
  injection Hsave as <-. injection Htrail as <-. discriminate.
Qed.

(** C4, amended: for a non-empty [cx] whose last element is a dict with no
    status, or with a status list: without status the bundle
    [{"status": [{"error": "", "success": True}]}] is appended to [cx];
    with an empty status list the record is appended to that list in
    place; with a status list that holds records nothing is added.  The
    uploaded [cx] then ends with a status bundle of at least one record,
    which is the one success record in the first two cases; when [cx] was
    serializable the uploaded text exists and ends with that bundle; and
    a second call adds nothing. *)
Theorem save_new_network_status (h : heap) l items d entries :
  h !! l = Some (OList items) →
  last items = Some (VRef d) →
  h !! d = Some (ODict entries) →
  (dict_get "status" entries = VNone
   ∨ ∃ s recs, dict_get "status" entries = VRef s
               ∧ h !! s = Some (OList recs)) →
  ∃ h' recs',
    save_new_network h (VRef l) = Upload h'
    ∧ trailing_status h' (VRef l) = Some recs'
    ∧ (1 ≤ length recs')%nat
    ∧ save_new_network h' (VRef l) = Upload h'
    ∧ (∀ n0 j0, dumps n0 h (VRef l) = Some j0 →
                ∃ fuel j jrecs,
                  dumps fuel h' (VRef l) = Some j
                  ∧ json_trailing_status j = Some jrecs
                  ∧ length jrecs = length recs')
    ∧ (dict_get "status" entries = VNone →
       h' = append_status_bundle h l items
       ∧ h' !! l = Some (OList (items ++ [VRef (length h + 2)%nat]))
       ∧ h' !! (length h + 2)%nat
         = Some (ODict [("status", VRef (length h + 1)%nat)])
       ∧ recs' = [VRef (length h)]
       ∧ h' !! length h = Some success_record
       ∧ ∀ n0 j0, dumps n0 h (VRef l) = Some j0 →
                  ∃ js0, j0 = JArr js0
                         ∧ dumps (n0 + 3) h' (VRef l)
                           = Some (JArr (js0 ++ [status_json])))
    ∧ (∀ s, dict_get "status" entries = VRef s →
            h !! s = Some (OList []) →
            h' = append_success_record h s []
            ∧ h' !! l = Some (OList items)
            ∧ h' !! d = Some (ODict entries)
            ∧ recs' = [VRef (length h)]
            ∧ h' !! length h = Some success_record
            ∧ ∀ n0 j0, dumps n0 h (VRef l) = Some j0 →
                       ∃ j, dumps (n0 + 2) h' (VRef l) = Some j
                            ∧ json_trailing_status j = Some [success_json])
    ∧ (∀ s recs, dict_get "status" entries = VRef s →
                 h !! s = Some (OList recs) →
                 recs ≠ [] →
                 h' = h ∧ recs' = recs).
Proof.
  intros Hl Hlast Hd [Hst | (s & recs & Hst & Hs)].
  - destruct (status_absent h l items d entries Hl Hlast Hd Hst)
      as (Hsave & Htrail & Hagain).
    destruct (append_status_bundle_spec h l items Hl)
      as (Al & Ar & _ & Ab & _).
    pose proof (status_absent_dumps h l items) as Hdumps.
    eexists _, _. split; [exact Hsave|]. split; [exact Htrail|].
    split; [simpl; lia|]. split; [exact Hagain|]. split; [|split; [|split]].
    + intros n0 j0 H0. destruct (Hdumps n0 j0 Hl H0) as (js0 & -> & Hj).
      eexists _, _, _. split; [exact Hj|].
      unfold json_trailing_status. by rewrite last_snoc.
    + intros _. repeat split; try assumption.
      intros n0 j0 H0. exact (Hdumps n0 j0 Hl H0).
    + intros s' Hst'. congruence.
    + intros s' recs Hst'. congruence.
  - destruct recs as [|rec recs].
    + destruct (status_empty h l items d entries s Hl Hlast Hd Hst Hs)
        as (Hsave & Al & Ad & Htrail & Hagain).
      destruct (append_success_record_spec h s [] Hs) as (_ & Ar & _).
      pose proof (status_empty_dumps h l items d entries s) as Hdumps.
      eexists _, _. split; [exact Hsave|]. split; [exact Htrail|].
      split; [simpl; lia|]. split; [exact Hagain|]. split; [|split; [|split]].
      * intros n0 j0 H0.
        destruct (Hdumps n0 j0 Hl Hlast Hd Hst Hs H0) as (j & Hj & Hjrecs).
        by eexists _, _, _.
      * intros Hst'. congruence.
      * intros s' Hst' _. assert (s' = s) as -> by congruence.
        repeat split; try assumption.
        intros n0 j0 H0. exact (Hdumps n0 j0 Hl Hlast Hd Hst Hs H0).
      * intros s' recs Hst' Hs' Hne. assert (s' = s) as -> by congruence.
        rewrite Hs in Hs'. injection Hs' as <-. by destruct Hne.
    + assert (Hne : rec :: recs ≠ []) by discriminate.
      destruct (status_present h l items d entries s _ Hl Hlast Hd Hst Hs Hne)
        as (Hsave & Htrail).
      exists h, (rec :: recs). split; [exact Hsave|]. split; [exact Htrail|].
      split; [simpl; lia|]. split; [exact Hsave|]. split; [|split; [|split]].
      * intros n0 j0 H0.
        destruct (dumps_trailing_status _ _ _ _ _ H0 Htrail)
          as (jrecs & _ & Hjrecs & _ & Hlen).
        by exists n0, j0, jrecs.
      * intros Hst'. congruence.
      * intros s' Hst' Hs'. assert (s' = s) as -> by congruence.
        rewrite Hs in Hs'. discriminate.
      * intros s' recs' Hst' Hs' _. assert (s' = s) as -> by congruence.
        rewrite Hs in Hs'. injection Hs' as <-. by split.
Qed.

Lemma save_new_network_status_witness :
  bob_heap !! 0%nat = Some (OList [VRef 1])
  ∧ last [VRef 1] = Some (VRef 1)
  ∧ bob_heap !! 1%nat = Some (ODict [("nodes", VRef 2)])
  ∧ dict_get "status" [("nodes", VRef 2)] = VNone
  ∧ ∃ h' recs',
      save_new_network bob_heap (VRef 0) = Upload h'
      ∧ trailing_status h' (VRef 0) = Some recs'
      ∧ recs' = [VRef 4]
      ∧ h' !! 4%nat = Some success_record
      ∧ save_new_network h' (VRef 0) = Upload h'
      ∧ ∃ js0, dumps 4 bob_heap (VRef 0) = Some (JArr js0)
               ∧ dumps 7 h' (VRef 0) = Some (JArr (js0 ++ [status_json])).
Proof.
  do 4 (split; [reflexivity|]).
  destruct (save_new_network_status bob_heap 0 [VRef 1] 1 [("nodes", VRef 2)]
              eq_refl eq_refl eq_refl (or_introl eq_refl))
    as (h' & recs' & Hsave & Htrail & _ & Hagain & _ & Habsent & _).
  destruct (Habsent eq_refl) as (_ & _ & _ & Hrecs & Hrecord & Hdumps).
  exists h', recs'. repeat (split; [assumption|]).
  destruct (Hdumps 4%nat _ eq_refl) as (js0 & Hjs0 & Hout).
  exists js0. split; [by rewrite <- Hjs0 | exact Hout].
Defined.

(** The stream uploaded for the network of [test_upload_to_success], and
    for a network that ends with an empty status bundle. *)
Example upload_of_bob :
  ∃ h', save_new_network bob_heap (VRef 0) = Upload h'
        ∧ dumps 4 h' (VRef 0)
          = Some (JArr [JObj [("nodes",
                               JArr [JObj [("@id", JInt 0);
                                           ("n", JStr "bob");
                                           ("r", JStr "bob")]])];
                        JObj [("status",
                               JArr [JObj [("error", JStr "");
                                           ("success", JBool true)]])]]).
Proof. eexists. split; reflexivity. Qed.

(** One status list under two bundles: the record appended to it shows in
    both, the list being one object. *)
Example upload_of_shared_status :
  let h := [OList [VRef 1; VRef 2];
            ODict [("status", VRef 3)];
            ODict [("status", VRef 3)];
            OList []] in
  ∃ h', save_new_network h (VRef 0) = Upload h'
        ∧ dumps 4 h' (VRef 0)
          = Some (JArr [JObj [("status",
                               JArr [JObj [("error", JStr "");
                                           ("success", JBool true)]])];
                        JObj [("status",
                               JArr [JObj [("error", JStr "");
                                           ("success", JBool true)]])]]).
Proof. eexists. split; reflexivity. Qed.

Example upload_of_empty_status :
  ∃ h', save_new_network empty_status_heap (VRef 0) = Upload h'
        ∧ dumps 4 h' (VRef 0)
          = Some (JArr [JObj [("status",
                               JArr [JObj [("error", JStr "");
                                           ("success", JBool true)]])]]).
Proof. eexists. split; reflexivity. Qed.

(** ** The encoder *)

(** [decode('ascii')] either returns the text of the bytes, all of them
    ASCII, or raises at the first byte that is not. *)
Lemma decode_ascii_from_spec bs : ∀ position,
  match decode_ascii_from position bs with
  | inl s => Forall is_ascii bs ∧ s = string_of_list_byte bs
  | inr (p, b) =>
      ∃ i, p = (position + i)%nat ∧ bs !! i = Some b ∧ ¬ is_ascii b
           ∧ Forall is_ascii (take i bs)
  end.
Proof.
  induction bs as [|b bs IH]; intros position; simpl.
  - split; [constructor | reflexivity].
  - destruct (N.ltb_spec (Byte.to_N b) 128) as [Hb|Hb].
    + specialize (IH (S position)).
      destruct (decode_ascii_from (S position) bs) as [s|[p b']].
      * destruct IH as [Hall ->]. split; [by constructor | reflexivity].
      * destruct IH as (i & -> & Hi & Hnot & Hbefore).
        exists (S i). repeat split; [lia | exact Hi | exact Hnot |].
        simpl. by constructor.
    + exists 0%nat. repeat split; [lia | | constructor].
      unfold is_ascii. lia.
Qed.

(** C9, as stated, fails: for the signaling NaN, a decimal value,
    [default] returns no float, whatever the floats and the rounding to
    them are: [float(o)] raises [ValueError]. *)
Lemma signaling_nan_not_encoded :
  (¬ ∃ (Float Other : Type) (float_value : decimal → Float) (f : Float),
       default (Other:=Other) float_value (PyDecimal (DecSNaN false 0))
       = Returns (EncFloat f))
  ∧ default (Other:=unit) (λ _, tt) (PyDecimal (DecSNaN false 0))
    = ValueError.
Proof.
  split; [|reflexivity]. intros (Float & Other & float_value & f & H).
  discriminate H.
Qed.

(** C9, amended: the encoder's [default] returns a float, the language's
    conversion of it, for every decimal that is no signaling NaN, and
    raises [ValueError] for a signaling NaN; it returns the plain integer
    for every numpy integer, and for a byte sequence the text of its ASCII
    decoding, which reads back as the same bytes; it raises the decoding
    error, at the first offending byte, when the bytes are not all
    ASCII. *)
Theorem default_encodes (Float Other : Type)
    (float_value : decimal → Float) :
  (∀ d, is_snan d = false →
        default (Other:=Other) float_value (PyDecimal d)
        = Returns (EncFloat (float_value d)))
  ∧ (∀ d, is_snan d = true →
          default (Other:=Other) float_value (PyDecimal d) = ValueError)
  ∧ (∀ d, (∃ f, default (Other:=Other) float_value (PyDecimal d)
                = Returns (EncFloat f))
          ↔ ∀ sign payload, d ≠ DecSNaN sign payload)
  ∧ (∀ n, default (Other:=Other) float_value (PyNumpyInteger n)
          = Returns (EncInt n))
  ∧ (∀ bs, Forall is_ascii bs →
           default (Other:=Other) float_value (PyBytes bs)
             = Returns (EncStr (string_of_list_byte bs))
           ∧ list_byte_of_string (string_of_list_byte bs) = bs)
  ∧ (∀ bs, ¬ Forall is_ascii bs →
           ∃ i b, default (Other:=Other) float_value (PyBytes bs)
                    = UnicodeDecodeError i b
                  ∧ bs !! i = Some b ∧ ¬ is_ascii b
                  ∧ Forall is_ascii (take i bs)).
Proof.
  split; [|split; [|split; [|split; [reflexivity|split]]]].
  - intros d Hd. unfold default, float. by rewrite Hd.
  - intros d Hd. unfold default, float. by rewrite Hd.
  - intros d. unfold default, float. split.
    + intros [f Hf] sign payload ->. discriminate Hf.
    + intros Hd. destruct d as [sign c e|sign|sign payload|sign payload];
        simpl; eauto. by destruct (Hd sign payload).
  - intros bs Hall. split; [|apply list_byte_of_string_of_list_byte].
    unfold default, decode_ascii.
    pose proof (decode_ascii_from_spec bs 0) as Hspec.
    destruct (decode_ascii_from 0 bs) as [s|[p b]].
    + by destruct Hspec as [_ ->].
    + destruct Hspec as (i & _ & Hi & Hnot & _).
      destruct Hnot. rewrite Forall_lookup in Hall. by apply (Hall i).
  - intros bs Hnotall. unfold default, decode_ascii.
    pose proof (decode_ascii_from_spec bs 0) as Hspec.
    destruct (decode_ascii_from 0 bs) as [s|[p b]].
    + by destruct Hspec as [Hall _].
    + destruct Hspec as (i & -> & Hrest). by exists i, b.
Qed.

Lemma default_encodes_witness :
  let float_value (d : decimal) : QArith_base.Q :=
    match d with
    | DecFinite false c 0 => QArith_base.inject_Z (Z.of_N c)
    | _ => QArith_base.inject_Z 0
    end in
  is_snan (DecFinite false 5 0) = false
  ∧ default (Other:=unit) float_value (PyDecimal (DecFinite false 5 0))
    = Returns (EncFloat (QArith_base.inject_Z 5))
  ∧ is_snan (DecSNaN true 7) = true
  ∧ default (Other:=unit) float_value (PyDecimal (DecSNaN true 7))
    = ValueError
  ∧ Forall is_ascii [x62; x6f; x62]
  ∧ default (Other:=unit) float_value (PyBytes [x62; x6f; x62])
    = Returns (EncStr "bob")
  ∧ ¬ Forall is_ascii [x62; xf6; x62]
  ∧ default (Other:=unit) float_value (PyBytes [x62; xf6; x62])
    = UnicodeDecodeError 1 xf6.
Proof.
  intros float_value.
  destruct (default_encodes QArith_base.Q unit float_value)
    as (Hfloat & Hsnan & _ & _ & Hascii & Hother).
  assert (Hall : Forall is_ascii [x62; x6f; x62]).
  { repeat constructor. }
  assert (Hnot : ¬ Forall is_ascii [x62; xf6; x62]).
  { intros H. inversion H as [|? ? _ H']; subst.
    inversion H' as [|? ? Hb _]; subst. vm_compute in Hb. discriminate. }
  split; [reflexivity|].
  split; [exact (Hfloat (DecFinite false 5 0) eq_refl)|].
  split; [reflexivity|]. split; [exact (Hsnan (DecSNaN true 7) eq_refl)|].
  split; [exact Hall|]. split; [exact (proj1 (Hascii _ Hall))|].
  split; [exact Hnot|].
  destruct (Hother _ Hnot) as (i & b & Heq & _).
  rewrite Heq. vm_compute in Heq. by injection Heq as <- <-.
Defined.

End ClientFacts.

(** * Properties of the network model *)

Section NetworkFacts.

Import NiceCXNetwork.

(** ** Attributes *)

Lemma attributes_of_with kind net attrs :
  attributes_of kind (with_attributes kind net attrs) = attrs.
Proof. by destruct kind. Qed.

(** A well-formed call succeeds; the owner's list is the new record alone
    on [overwrite], the old list followed by the new record otherwise. *)
Lemma setAttribute_ok kind id name val type overwrite net :
  ∃ net',
    setAttribute kind (PoId id) (Some name) (Some val) type overwrite net
      = Ok net'
    ∧ getAttributes kind net' id
      = (if overwrite then [] else getAttributes kind net id)
          ++ [{| po := id; n := name; v := val;
                 d := default (infer_datatype val) type |}].
Proof.
  eexists. split; [reflexivity|].
  unfold getAttributes at 1. rewrite attributes_of_with, lookup_insert_eq.
  by destruct overwrite.
Qed.

(** C1: on a new network, two calls without overwrite for an owner and a
    name leave the owner with exactly two records, in call order, with the
    values [v1] and [v2] (on any network the two records are appended to
    the owner's list); two calls with overwrite leave one record, the
    last, because a call with overwrite replaces the owner's whole list,
    whatever records it held. *)
Theorem setAttribute_multiplicity kind o k v1 v2 t1 t2 :
  let r1 := {| po := o; n := k; v := v1;
               d := default (infer_datatype v1) t1 |} in
  let r2 := {| po := o; n := k; v := v2;
               d := default (infer_datatype v2) t2 |} in
  (∃ net1 net2,
     setAttribute kind (PoId o) (Some k) (Some v1) t1 false empty_network
       = Ok net1
     ∧ setAttribute kind (PoId o) (Some k) (Some v2) t2 false net1 = Ok net2
     ∧ getAttributes kind net2 o = [r1; r2]
     ∧ length (getAttributes kind net2 o) = 2%nat
     ∧ v <$> getAttributes kind net2 o = [v1; v2])
  ∧ (∀ net, ∃ net1 net2,
       setAttribute kind (PoId o) (Some k) (Some v1) t1 false net = Ok net1
       ∧ setAttribute kind (PoId o) (Some k) (Some v2) t2 false net1 = Ok net2
       ∧ getAttributes kind net2 o = getAttributes kind net o ++ [r1; r2])
  ∧ (∀ net, ∃ net1 net2,
       setAttribute kind (PoId o) (Some k) (Some v1) t1 true net = Ok net1
       ∧ setAttribute kind (PoId o) (Some k) (Some v2) t2 true net1 = Ok net2
       ∧ getAttributes kind net1 o = [r1]
       ∧ getAttributes kind net2 o = [r2]
       ∧ length (getAttributes kind net2 o) = 1%nat).
Proof.
  intros r1 r2.
  assert (Happend : ∀ net, ∃ net1 net2,
    setAttribute kind (PoId o) (Some k) (Some v1) t1 false net = Ok net1
    ∧ setAttribute kind (PoId o) (Some k) (Some v2) t2 false net1 = Ok net2
    ∧ getAttributes kind net2 o = getAttributes kind net o ++ [r1; r2]).
  { intros net.
    destruct (setAttribute_ok kind o k v1 t1 false net) as (net1 & H1 & G1).
    destruct (setAttribute_ok kind o k v2 t2 false net1) as (net2 & H2 & G2).
    exists net1, net2. split; [exact H1|]. split; [exact H2|].
    rewrite G2, G1, <- app_assoc. reflexivity. }
  split; [|split; [exact Happend|]].
  - destruct (Happend empty_network) as (net1 & net2 & H1 & H2 & Hall).
    assert (Hnone : getAttributes kind empty_network o = []).
    { unfold getAttributes. destruct kind; simpl; by rewrite lookup_empty. }
    rewrite Hnone in Hall. exists net1, net2. rewrite Hall. by repeat split.
  - intros net.
    destruct (setAttribute_ok kind o k v1 t1 true net) as (net1 & H1 & G1).
    destruct (setAttribute_ok kind o k v2 t2 true net1) as (net2 & H2 & G2).
    exists net1, net2. rewrite G2. by repeat split.
Qed.

(** The calls of [test_set_node_attribute_add_duplicate_attributes] and of
    [test_set_node_attribute_add_duplicate_attributes_overwriteset]. *)
Example duplicate_attributes :
  let set value overwrite :=
    setAttribute NodeOwner (PoId 1) (Some "attrname") (Some (VStr value))
      None overwrite in
  (∃ net1 net2 net3,
     set "value" false empty_network = Ok net1
     ∧ set "value2" false net1 = Ok net2
     ∧ set "value3" false net2 = Ok net3
     ∧ v <$> getAttributes NodeOwner net3 1
       = [VStr "value"; VStr "value2"; VStr "value3"])
  ∧ (∃ net1 net2,
       set "value" true empty_network = Ok net1
       ∧ set "value2" true net1 = Ok net2
       ∧ v <$> getAttributes NodeOwner net2 1 = [VStr "value2"]).
Proof. intros set. split; eexists _, _; try eexists; by repeat split. Qed.

(** ** Datatype inference *)






(** The values of [test_set_node_attribute_empty_add_autodetect_datatype]. *)
Example autodetect_datatype :
  datatype_name (infer_datatype (VInt 5)) = "integer"
  ∧ datatype_name (infer_datatype (VDouble (QArith_base.Qmake 11 2)))
    = "double"
  ∧ datatype_name (infer_datatype (VSeq [VStr "hi"; VStr "bye"]))
    = "list_of_string".
Proof. by repeat split. Qed.

(** ** Malformed input *)

(** C5: [setAttribute] fails with [InvalidArgument], and so never succeeds,
    on malformed input: without [propertyOf] the message contains
    "requires property_of"; with a structured reference that has no id it
    is "No id found in Node" (or "... Edge"); with an owner that resolves
    but without a name or without a value it contains "requires the name
    and values property". *)
Theorem setAttribute_rejects kind name val type overwrite net :
  (∃ message,
     setAttribute kind PoNone name val type overwrite net
       = Fail (InvalidArgument message)
     ∧ contains "requires property_of" message = true
     ∧ (kind = NodeOwner → message = "Node attribute requires property_of"))
  ∧ setAttribute kind (PoRef None) name val type overwrite net
    = Fail (InvalidArgument
              (match kind with
               | NodeOwner => "No id found in Node"
               | EdgeOwner => "No id found in Edge"
               end))
  ∧ (∀ owner id,
       resolve kind owner = Ok id →
       name = None ∨ val = None →
       ∃ message,
         setAttribute kind owner name val type overwrite net
           = Fail (InvalidArgument message)
         ∧ contains "requires the name and values property" message = true
         ∧ (kind = NodeOwner →
            message = "Node attribute requires the name and values property"))
  ∧ (∀ owner,
       owner = PoNone ∨ owner = PoRef None ∨ name = None ∨ val = None →
       ∃ message,
         setAttribute kind owner name val type overwrite net
           = Fail (InvalidArgument message)).
Proof.
  split; [|split; [|split]].
  - eexists. split; [reflexivity|]. by destruct kind.
  - by destruct kind.
  - intros owner id Hid Hmissing. unfold setAttribute. rewrite Hid.
    eexists. split.
    + destruct Hmissing as [-> | ->]; [reflexivity | by destruct name].
    + by destruct kind.
  - intros owner Hbad. unfold setAttribute.
    destruct (resolve kind owner) as [id|e] eqn:Hres.
    + destruct Hbad as [-> | [-> | [-> | ->]]]; try discriminate;
        [by eexists | destruct name; by eexists].
    + destruct owner as [|id|[id|]]; try discriminate;
        simpl in Hres; injection Hres as <-; by eexists.
Qed.

Lemma setAttribute_rejects_witness :
  resolve NodeOwner (PoId 1) = Ok 1
  ∧ setAttribute NodeOwner PoNone (Some "foo") (Some (VStr "blah")) None
      false empty_network
    = Fail (InvalidArgument "Node attribute requires property_of")
  ∧ setAttribute NodeOwner (PoRef None) (Some "attrname") (Some (VInt 5))
      None false empty_network
    = Fail (InvalidArgument "No id found in Node")
  ∧ setAttribute NodeOwner (PoId 1) None (Some (VStr "blah")) None
      false empty_network
    = Fail (InvalidArgument
              "Node attribute requires the name and values property").
Proof.
  split; [reflexivity|]. split; [|split].
  - destruct (setAttribute_rejects NodeOwner (Some "foo")
                (Some (VStr "blah")) None false empty_network)
      as [(message & Hfail & _ & Hnode) _].
    by rewrite Hfail, (Hnode eq_refl).
  - exact (proj1 (proj2 (setAttribute_rejects NodeOwner (Some "attrname")
                           (Some (VInt 5)) None false empty_network))).
  - destruct (setAttribute_rejects NodeOwner None (Some (VStr "blah")) None
                false empty_network) as (_ & _ & Hname & _).
    destruct (Hname (PoId 1) 1 eq_refl (or_introl eq_refl))
      as (message & Hfail & _ & Hnode).
    by rewrite Hfail, (Hnode eq_refl).
Defined.

(** ** Style *)

Section StyleFacts.

Variable CY_VISUAL_PROPERTIES : string.

Local Abbreviation applyStyleFrom :=
  (NiceCXNetwork.applyStyleFrom CY_VISUAL_PROPERTIES).
Local Abbreviation style_of := (NiceCXNetwork.style_of CY_VISUAL_PROPERTIES).

Lemma decode_style_legacy records :
  legacy_shape records → ∃ es, decode_style records = Ok es.
Proof.
  intros Hshape. unfold decode_style.
  destruct (mapM as_flat records) as [es|] eqn:Hflat; [by eexists|].
  apply mapM_None in Hflat. apply Exists_exists in Hflat as (r & Hr & Hnone).
  unfold legacy_shape in Hshape. rewrite Forall_forall in Hshape.
  destruct (Hshape r Hr) as [e He]. congruence.
Qed.

Lemma decode_style_bundle records :
  bundle_shape records → ∃ es, decode_style records = Ok es.
Proof.
  intros Hshape. unfold decode_style.
  destruct (mapM as_flat records) as [es|]; [by eexists|].
  destruct (mapM as_bundle records) as [bs|] eqn:Hbundle; [by eexists|].
  apply mapM_None in Hbundle.
  apply Exists_exists in Hbundle as (r & Hr & Hnone).
  unfold bundle_shape in Hshape. rewrite Forall_forall in Hshape.
  destruct (Hshape r Hr) as [e He]. congruence.
Qed.

(** The style of a source of either shape is transplanted as its three
    category bundles; the rest of the target stays. *)
Lemma applyStyleFrom_ok target src records :
  style_of src = Some records →
  legacy_shape records ∨ bundle_shape records →
  ∃ es target',
    decode_style records = Ok es
    ∧ applyStyleFrom target (ArgNetwork src) = Ok target'
    ∧ style_of target'
      = Some [category_bundle NetworkDefault es;
              category_bundle NodeDefault es;
              category_bundle EdgeDefault es]
    ∧ nodes target' = nodes target
    ∧ nodeAttributes target' = nodeAttributes target
    ∧ edgeAttributes target' = edgeAttributes target.
Proof.
  intros Hstyle Hshape.
  assert (∃ es, decode_style records = Ok es) as [es Hes].
  { destruct Hshape; [by apply decode_style_legacy
                     | by apply decode_style_bundle]. }
  exists es. eexists. split; [exact Hes|].
  unfold applyStyleFrom, NiceCXNetwork.applyStyleFrom.
  unfold style_of, NiceCXNetwork.style_of in Hstyle.
  rewrite Hstyle. unfold normalize_style. rewrite Hes.
  split; [reflexivity|]. unfold NiceCXNetwork.style_of. simpl.
  rewrite lookup_insert_eq. by repeat split.
Qed.

(** C2: when the source has a styling aspect of the legacy flat shape or
    of the newer bundle shape, [applyStyleFrom] succeeds and the styling
    aspect of the target is then the three normalized bundles of the
    source (network default, node default, edge default), three records
    whatever the number of records of the source and of the target were;
    a second application, from another source, again leaves three, those
    of that source. *)
Theorem applyStyleFrom_three_records target src1 src2 recs1 recs2 :
  style_of src1 = Some recs1 →
  legacy_shape recs1 ∨ bundle_shape recs1 →
  style_of src2 = Some recs2 →
  legacy_shape recs2 ∨ bundle_shape recs2 →
  ∃ es1 es2 target1 target2,
    decode_style recs1 = Ok es1
    ∧ decode_style recs2 = Ok es2
    ∧ applyStyleFrom target (ArgNetwork src1) = Ok target1
    ∧ style_of target1
      = Some [category_bundle NetworkDefault es1;
              category_bundle NodeDefault es1;
              category_bundle EdgeDefault es1]
    ∧ length <$> style_of target1 = Some 3%nat
    ∧ applyStyleFrom target1 (ArgNetwork src2) = Ok target2
    ∧ style_of target2
      = Some [category_bundle NetworkDefault es2;
              category_bundle NodeDefault es2;
              category_bundle EdgeDefault es2]
    ∧ length <$> style_of target2 = Some 3%nat.
Proof.
  intros Hstyle1 Hshape1 Hstyle2 Hshape2.
  destruct (applyStyleFrom_ok target src1 recs1 Hstyle1 Hshape1)
    as (es1 & target1 & Hes1 & Happly1 & Hthree1 & _).
  destruct (applyStyleFrom_ok target1 src2 recs2 Hstyle2 Hshape2)
    as (es2 & target2 & Hes2 & Happly2 & Hthree2 & _).
  exists es1, es2, target1, target2.
  rewrite Hthree1, Hthree2. by repeat split.
Qed.

(** C6: [applyStyleFrom] fails with [InvalidArgument] and "Object passed in
    is None" without a source, with [InvalidArgument] and "Object passed in
    is not NiceCXNetwork" for a source that is no network, and with
    [NoStyleFound] and "No visual style found in network" for a source
    network without styling aspect; the result is that failure and no
    other. *)
Theorem applyStyleFrom_errors target :
  applyStyleFrom target ArgNone
    = Fail (InvalidArgument "Object passed in is None")
  ∧ (∀ repr, applyStyleFrom target (ArgOther repr)
             = Fail (InvalidArgument "Object passed in is not NiceCXNetwork"))
  ∧ (∀ src, style_of src = None →
            applyStyleFrom target (ArgNetwork src)
              = Fail (NoStyleFound "No visual style found in network")).
Proof.
  split; [reflexivity|]. split; [reflexivity|].
  intros src Hnone. unfold applyStyleFrom, NiceCXNetwork.applyStyleFrom.
  unfold style_of, NiceCXNetwork.style_of in Hnone. by rewrite Hnone.
Qed.

End StyleFacts.

Lemma applyStyleFrom_three_records_witness :
  let name := "cyVisualProperties" in
  length dark_style = 9%nat ∧ length flat_style = 5%nat
  ∧ length bundled_style = 4%nat
  ∧ legacy_shape flat_style ∧ bundle_shape bundled_style
  ∧ ∃ target1 target2,
      applyStyleFrom name (styled name dark_style)
        (ArgNetwork (styled name flat_style)) = Ok target1
      ∧ length <$> style_of name target1 = Some 3%nat
      ∧ applyStyleFrom name target1 (ArgNetwork (styled name bundled_style))
        = Ok target2
      ∧ length <$> style_of name target2 = Some 3%nat.
Proof.
  intros name.
  assert (Hflat : legacy_shape flat_style).
  { repeat constructor; by eexists. }
  assert (Hbundled : bundle_shape bundled_style).
  { repeat constructor; by eexists. }
  do 3 (split; [reflexivity|]). split; [exact Hflat|].
  split; [exact Hbundled|].
  destruct (applyStyleFrom_three_records name (styled name dark_style)
              (styled name flat_style) (styled name bundled_style)
              flat_style bundled_style
              eq_refl (or_introl Hflat) eq_refl (or_intror Hbundled))
    as (es1 & es2 & target1 & target2
        & _ & _ & Happly1 & _ & Hlen1 & Happly2 & _ & Hlen2).
  by exists target1, target2.
Defined.

(** The aspect of the dark network after the two applications: the three
    bundles of the second source, without the entry of node [1]. *)
Example style_after_two_applications :
  let name := "cyVisualProperties" in
  ∃ target1 target2,
    applyStyleFrom name (styled name dark_style)
      (ArgNetwork (styled name flat_style)) = Ok target1
    ∧ applyStyleFrom name target1 (ArgNetwork (styled name bundled_style))
      = Ok target2
    ∧ style_of name target2
      = Some [Bundle [entry NetworkDefault "NETWORK_BACKGROUND_PAINT"
                        "#000000"];
              Bundle [entry NodeDefault "NODE_FILL_COLOR" "#333333";
                      entry NodeDefault "NODE_SIZE" "35.0"];
              Bundle [entry EdgeDefault "EDGE_PAINT" "#CCCCCC"]].
Proof. intros name. eexists _, _. by repeat split. Qed.

Lemma applyStyleFrom_errors_witness :
  let name := "cyVisualProperties" in
  style_of name empty_network = None
  ∧ applyStyleFrom name (styled name dark_style) (ArgNetwork empty_network)
    = Fail (NoStyleFound "No visual style found in network").
Proof.
  intros name. split; [reflexivity|].
  exact (proj2 (proj2 (applyStyleFrom_errors name (styled name dark_style)))
           empty_network eq_refl).
Defined.

End NetworkFacts.

(** * The builder and the model *)

(** C7: the builder's [add_node] deduplicates by name: a second call for a
    name returns the id the first call returned and changes nothing, the
    node staged for the name, with its represents value, is the one of
    the first call; the model's [createNode] does not: two calls with one
    name return two distinct ids, and the model then holds a node of that
    name under each. *)
Theorem add_node_dedups_createNode_does_not :
  (∀ b name represents1 id1 data_type1 represents2 id2 data_type2,
     let first :=
       NiceCXBuilder.add_node b name represents1 id1 data_type1 in
     NiceCXBuilder.add_node first.1 name represents2 id2 data_type2 = first
     ∧ ∃ staged,
         NiceCXBuilder.node_inventory first.1 !! name = Some staged
         ∧ NiceCXBuilder.node_id staged = first.2)
  ∧ (∀ net name represents1 represents2,
       let first := NiceCXNetwork.createNode net name represents1 in
       let second := NiceCXNetwork.createNode first.1 name represents2 in
       first.2 ≠ second.2
       ∧ (NiceCXNetwork.node_name <$> NiceCXNetwork.nodes second.1 !! first.2)
         = Some name
       ∧ (NiceCXNetwork.node_name <$> NiceCXNetwork.nodes second.1 !! second.2)
         = Some name).
Proof.
  split.
  - intros b name represents1 id1 data_type1 represents2 id2 data_type2 first.
    destruct (add_node_stages b name represents1 id1 data_type1)
      as (staged & Hstaged & Hid).
    fold first in Hstaged, Hid. split; [|by exists staged].
    rewrite (add_node_staged _ _ _ _ _ _ Hstaged), Hid. by destruct first.
  - intros net name represents1 represents2 first second.
    unfold second, first, NiceCXNetwork.createNode. simpl.
    split; [lia|]. split.
    + rewrite lookup_insert_ne by lia. by rewrite lookup_insert_eq.
    + by rewrite lookup_insert_eq.
Qed.

(** ["bob"] twice, in a new builder and in an empty model. *)
Example bob_twice :
  (NiceCXBuilder.add_node NiceCXBuilder.init (Some "bob") None None None).2
    = 0
  ∧ (NiceCXBuilder.add_node
       (NiceCXBuilder.add_node NiceCXBuilder.init (Some "bob") None None
          None).1
       (Some "bob") None None None).2 = 0
  ∧ (NiceCXNetwork.createNode NiceCXNetwork.empty_network "bob" None).2 = 0
  ∧ (NiceCXNetwork.createNode
       (NiceCXNetwork.createNode NiceCXNetwork.empty_network "bob" None).1
       "bob" None).2 = 1.
Proof. by repeat split. Qed.

(** * Properties of the attributes and of the assembly *)

Section AssemblyFacts.

Import NiceCXBuilder BuilderAssembly.

(** ** [get_frag_from_list_by_key] *)

(** Aspects without the key are passed over. *)
Lemma get_frag_skips key before rest :
  Forall (λ a, Client.json_get key a = None) before →
  get_frag_from_list_by_key (before ++ rest) key
  = get_frag_from_list_by_key rest key.
Proof.
  induction 1 as [|a before Ha _ IH]; [done|]. simpl. by rewrite Ha.
Qed.

(** X1: [get_frag_from_list_by_key(cx, key)] answers with the value of
    the first aspect that has the key, whatever the aspects after it
    hold, and with the empty list when no aspect has the key. *)
Theorem get_frag_first_match (before after : list aspect)
    (found : aspect) (key : string) (fragments : Client.json) :
  Forall (λ a, Client.json_get key a = None) before →
  (Client.json_get key found = Some fragments →
   get_frag_from_list_by_key (before ++ found :: after) key = fragments)
  ∧ get_frag_from_list_by_key before key = Client.JArr [].
Proof.
  intros Hbefore. split.
  - intros Hfound. rewrite get_frag_skips by done. simpl. by rewrite Hfound.
  - rewrite <- (app_nil_r before). by rewrite get_frag_skips.
Qed.

Lemma get_frag_first_match_witness :
  let numbers := [("numberVerification", Client.JArr [])] in
  let first := [("nodes", Client.JArr [Client.JInt 1])] in
  let second := [("nodes", Client.JArr [Client.JInt 2])] in
  get_frag_from_list_by_key [numbers; first; second] "nodes"
  = Client.JArr [Client.JInt 1]
  ∧ get_frag_from_list_by_key [numbers] "nodes" = Client.JArr [].
Proof.
  intros numbers first second.
  destruct (get_frag_first_match [numbers] [second] first "nodes"
              (Client.JArr [Client.JInt 1])) as [Hfound Hnone].
  - repeat constructor.
  - split; [apply Hfound; reflexivity|exact Hnone].
Defined.

(** ** Attributes *)

(** The loop over an inventory in two parts. *)
Lemma assemble_attributes_app inv1 inv2 attrs attrs1 :
  assemble_attributes inv1 attrs = Done attrs1 →
  assemble_attributes (inv1 ++ inv2) attrs = assemble_attributes inv2 attrs1.
Proof.
  revert attrs. induction inv1 as [|a inv1 IH]; intros attrs; simpl.
  - by intros [= ->].
  - destruct (add_attribute_from_fragment attrs a); [apply IH|done].
Qed.

Lemma owned_by_app k inv1 inv2 :
  owned_by k (inv1 ++ inv2) = owned_by k inv1 ++ owned_by k inv2.
Proof. apply List.filter_app. Qed.

(** With hashable owners the loop runs to its end and appends to each
    owner's list that owner's attributes, in the order of the inventory. *)
Lemma assemble_attributes_done inventory :
  ∀ attrs,
    Forall (λ a, is_Some (hash_key (attr_po a))) inventory →
    ∃ attrs',
      assemble_attributes inventory attrs = Done attrs'
      ∧ ∀ k, default [] (attrs' !! k)
             = default [] (attrs !! k) ++ owned_by k inventory
      ∧ (attrs' !! k = None ↔ attrs !! k = None ∧ owned_by k inventory = []).
Proof.
  induction inventory as [|a inventory IH]; intros attrs Hall.
  - exists attrs. split; [done|]. intros k. simpl. rewrite app_nil_r. tauto.
  - apply Forall_cons in Hall as [[ka Hka] Hall]. simpl.
    unfold add_attribute_from_fragment. rewrite Hka.
    destruct (IH (<[ka:=default [] (attrs !! ka) ++ [a]]> attrs) Hall)
      as (attrs' & Hrun & Hspec).
    exists attrs'. split; [exact Hrun|]. intros k.
    destruct (Hspec k) as [Hk Hnone]. unfold owned_by in *. simpl.
    rewrite Hk, Hnone, lookup_insert. case_decide as Hdec.
    + subst k. rewrite bool_decide_eq_true_2 by done. simpl.
      rewrite <- app_assoc. split; [done|]. split; [intros [? _]; done|].
      intros [_ ?]; done.
    + rewrite bool_decide_eq_false_2 by congruence. done.
Qed.


(** A loop that ran to its end met hashable owners only. *)
Lemma assemble_attributes_hashable inventory :
  ∀ attrs attrs',
    assemble_attributes inventory attrs = Done attrs' →
    Forall (λ a, is_Some (hash_key (attr_po a))) inventory.
Proof.
  induction inventory as [|a inventory IH]; intros attrs attrs'; [done|].
  simpl. unfold add_attribute_from_fragment.
  destruct (hash_key (attr_po a)) as [k|] eqn:Hk; [|done].
  intros Hrun. apply Forall_cons. split; [by eexists|]. by eapply IH.
Qed.

(** X2: assembled into a network without attributes, an attribute
    inventory whose owners are ids (or [None]) is grouped by owner: the
    list under an owner holds exactly the attributes staged for that
    owner, in the order of the calls, and an owner without attributes has
    no entry.  Whether the owner is a staged node or edge is not looked
    at. *)
Theorem attributes_grouped_by_owner (inventory : list attribute) :
  Forall (λ a, is_Some (hash_key (attr_po a))) inventory →
  ∃ attrs,
    assemble_attributes inventory ∅ = Done attrs
    ∧ ∀ k, default [] (attrs !! k) = owned_by k inventory
           ∧ (attrs !! k = None ↔ owned_by k inventory = []).
Proof.
  intros Hall.
  destruct (assemble_attributes_done inventory ∅ Hall) as (attrs & Hrun & Hspec).
  exists attrs. split; [exact Hrun|]. intros k.
  destruct (Hspec k) as [Hk Hnone]. rewrite lookup_empty in Hk, Hnone.
  split; [exact Hk|]. rewrite Hnone. tauto.
Qed.

Lemma attributes_grouped_by_owner_witness :
  let a po n := {| attr_po := po; attr_n := Some n;
                   attr_v := Client.JInt 1; attr_d := None |} in
  let inventory := [a (PoId 0) "x"; a (PoId 7) "y"; a (PoId 0) "z"] in
  ∃ attrs,
    assemble_attributes inventory ∅ = Done attrs
    ∧ default [] (attrs !! Some 0) = [a (PoId 0) "x"; a (PoId 0) "z"]
    ∧ default [] (attrs !! Some 7) = [a (PoId 7) "y"]
    ∧ attrs !! Some 1 = None.
Proof.
  intros a inventory.
  destruct (attributes_grouped_by_owner inventory) as (attrs & Hrun & Hspec).
  - repeat constructor; by eexists.
  - exists attrs. split; [exact Hrun|].
    split; [exact (proj1 (Hspec (Some 0)))|].
    split; [exact (proj1 (Hspec (Some 7)))|].
    by apply (proj2 (Hspec (Some 1))).
Defined.

(** X3: [add_node_attribute] and [add_edge_attribute] followed by the
    assembly: the new attribute is the last of its owner's list, after
    what the network held for that owner and what was staged before, and
    the lists of the other owners are what they are without the call. *)
Theorem staged_attribute_assembled_last (inventory : list attribute)
    (attrs : gmap (option Z) (list attribute)) (po : property_of)
    (name : option string) (value : Client.json) (type : option string)
    (k : option Z) :
  Forall (λ a, is_Some (hash_key (attr_po a))) inventory →
  hash_key po = Some k →
  ∃ before after,
    assemble_attributes inventory attrs = Done before
    ∧ assemble_attributes (add_attribute inventory po name value type) attrs
      = Done after
    ∧ after !! k
      = Some (default [] (before !! k)
              ++ [{| attr_po := po; attr_n := name; attr_v := value;
                     attr_d := keep_truthy type |}])
    ∧ ∀ k', k' ≠ k → after !! k' = before !! k'.
Proof.
  intros Hall Hk.
  destruct (assemble_attributes_done inventory attrs Hall)
    as (before & Hrun & _).
  exists before. eexists. split; [exact Hrun|]. unfold add_attribute.
  rewrite (assemble_attributes_app _ _ _ _ Hrun). simpl.
  unfold add_attribute_from_fragment. simpl. rewrite Hk.
  split; [reflexivity|]. split; [by rewrite lookup_insert_eq|].
  intros k' Hne. by rewrite lookup_insert_ne.
Qed.

Lemma staged_attribute_assembled_last_witness :
  let a po n := {| attr_po := po; attr_n := Some n;
                   attr_v := Client.JInt 1; attr_d := None |} in
  let inventory := [a (PoId 0) "x"; a (PoId 7) "y"] in
  ∃ before after,
    assemble_attributes inventory ∅ = Done before
    ∧ assemble_attributes
        (add_attribute inventory (PoId 0) (Some "z") (Client.JStr "v")
           (Some "string")) ∅
      = Done after
    ∧ after !! Some 0
      = Some (default [] (before !! Some 0)
              ++ [{| attr_po := PoId 0; attr_n := Some "z";
                     attr_v := Client.JStr "v"; attr_d := Some "string" |}])
    ∧ after !! Some 7 = before !! Some 7.
Proof.
  intros a inventory.
  destruct (staged_attribute_assembled_last inventory ∅ (PoId 0) (Some "z")
              (Client.JStr "v") (Some "string") (Some 0))
    as (before & after & Hbefore & Hafter & Hlast & Hothers).
  - repeat constructor; by eexists.
  - reflexivity.
  - exists before, after. repeat split; [exact Hbefore|exact Hafter
      |exact Hlast|]. by apply Hothers.
Defined.

(** X4: a node attribute staged with the node dict itself as
    [property_of], which the docstrings of [add_node_attribute] and
    [add_edge_attribute] allow, stops the assembly with a [TypeError]:
    the nodes and the node attributes staged before it are in the network
    by then, the node attributes after it and the edges are not. *)
Theorem element_dict_owner_raises
    (node_items : list (option string * node))
    (before after : list attribute) (a : attribute) (element : aspect)
    (edge_items : list (Z * edge)) (edge_attribute_inventory : list attribute)
    (cx : cx_network) :
  Forall (λ a, is_Some (hash_key (attr_po a))) before →
  attr_po a = PoDict element →
  ∃ reached,
    assemble_attributes before (nodeAttributes cx) = Done reached
    ∧ assemble_inventories node_items (before ++ a :: after) edge_items
        edge_attribute_inventory cx
      = TypeError {| nodes := assemble_nodes node_items (nodes cx);
                     nodeAttributes := reached;
                     edges := edges cx;
                     edgeAttributes := edgeAttributes cx |}.
Proof.
  intros Hall Hpo.
  destruct (assemble_attributes_done before (nodeAttributes cx) Hall)
    as (reached & Hrun & _).
  exists reached. split; [exact Hrun|]. unfold assemble_inventories.
  rewrite (assemble_attributes_app _ _ _ _ Hrun). simpl.
  unfold add_attribute_from_fragment. by rewrite Hpo.
Qed.

Lemma element_dict_owner_raises_witness :
  let a po n := {| attr_po := po; attr_n := Some n;
                   attr_v := Client.JInt 1; attr_d := None |} in
  let bob := {| node_id := 0; node_n := Some "bob"; node_r := None;
                node_d := None |} in
  let loop := {| edge_id := 0; edge_s := EpId 0; edge_t := EpId 0;
                 edge_i := "interacts-with" |} in
  let element := [("@id", Client.JInt 0)] in
  ∃ reached,
    assemble_attributes [a (PoId 0) "x"] ∅ = Done reached
    ∧ assemble_inventories [(Some "bob", bob)]
        [a (PoId 0) "x"; a (PoDict element) "y"; a (PoId 0) "z"]
        [(0, loop)] [] new_cx
      = TypeError {| nodes := assemble_nodes [(Some "bob", bob)] ∅;
                     nodeAttributes := reached;
                     edges := ∅;
                     edgeAttributes := ∅ |}.
Proof.
  intros a bob loop element.
  apply (element_dict_owner_raises [(Some "bob", bob)] [a (PoId 0) "x"]
           [a (PoId 0) "z"] (a (PoDict element) "y") element [(0, loop)] []
           new_cx).
  - repeat constructor; by eexists.
  - reflexivity.
Defined.

(** ** Nodes and edges *)

(** A loop of assignments [m[f(x)] = g(x)] is the union of the map the
    items make, the later item winning, with the map before the loop. *)
Lemma foldl_insert_union {K A B} `{Countable K} (f : B → K) (g : B → A)
    (items : list B) (m : gmap K A) :
  foldl (λ m x, <[f x := g x]> m) m items
  = list_to_map (reverse ((λ x, (f x, g x)) <$> items)) ∪ m.
Proof.
  induction items as [|x items IH] using rev_ind.
  - simpl. by rewrite (left_id_L ∅ (∪)).
  - rewrite foldl_snoc, IH, fmap_app. simpl. rewrite reverse_snoc. simpl.
    by rewrite insert_union_l.
Qed.

Lemma assemble_nodes_union items nodes0 :
  assemble_nodes items nodes0
  = list_to_map (reverse ((λ kv, (node_id kv.2, kv.2)) <$> items)) ∪ nodes0.
Proof. apply (foldl_insert_union (λ kv, node_id kv.2) (λ kv, kv.2)). Qed.

Lemma assemble_edges_union items edges0 b :
  lists_items items (edge_inventory b) →
  assemble_edges items edges0 = edge_inventory b ∪ edges0.
Proof.
  intros Hitems. unfold assemble_edges.
  rewrite (foldl_insert_union (λ kv : Z * edge, kv.1) (λ kv, kv.2)).
  f_equal. rewrite <- (list_to_map_to_list (edge_inventory b)).
  apply list_to_map_proper.
  - rewrite reverse_Permutation, <- list_fmap_compose.
    unfold lists_items in Hitems.
    rewrite (list_fmap_ext _ fst items) by (by intros ? []).
    rewrite Hitems. apply NoDup_fst_map_to_list.
  - rewrite reverse_Permutation. unfold lists_items in Hitems.
    rewrite <- Hitems. rewrite (list_fmap_ext _ id items) by (by intros ? []).
    by rewrite list_fmap_id.
Qed.

(** A list makes a map of its length exactly when its keys are pairwise
    distinct. *)
Lemma size_list_to_map_le {K A} `{Countable K} (l : list (K * A)) :
  (size (list_to_map l : gmap K A) ≤ length l)%nat.
Proof.
  induction l as [|[k v] l IH]; simpl.
  - by rewrite map_size_empty.
  - destruct ((list_to_map l : gmap K A) !! k) as [old|] eqn:Hk.
    + rewrite map_size_insert_Some by eauto. lia.
    + rewrite map_size_insert_None by done. lia.
Qed.

Lemma size_list_to_map_NoDup {K A} `{Countable K} (l : list (K * A)) :
  size (list_to_map l : gmap K A) = length l ↔ NoDup l.*1.
Proof.
  split; [|apply map_size_list_to_map].
  induction l as [|[k v] l IH]; simpl; [constructor|].
  pose proof (size_list_to_map_le l) as Hle.
  destruct ((list_to_map l : gmap K A) !! k) as [old|] eqn:Hk.
  - rewrite map_size_insert_Some by eauto. lia.
  - rewrite map_size_insert_None by done. intros [= Hsize].
    constructor; [|by apply IH]. by apply not_elem_of_list_to_map.
Qed.

(** The ids of the items of the node inventory, in whatever order, are
    without repeats exactly when the staged ids are pairwise distinct. *)
Lemma items_ids_NoDup b items :
  lists_items items (node_inventory b) →
  NoDup ((λ kv : option string * node, node_id kv.2) <$> items)
  ↔ node_ids_distinct b.
Proof.
  intros Hitems. unfold lists_items in Hitems. split.
  - intros Hnd k1 k2 n1 n2 H1 H2 Hne Heq.
    apply elem_of_map_to_list in H1, H2. rewrite <- Hitems in H1, H2.
    apply list_elem_of_lookup in H1 as [i Hi], H2 as [j Hj].
    assert (i = j) as ->.
    { eapply NoDup_lookup; [exact Hnd| |]; rewrite list_lookup_fmap.
      - by rewrite Hi.
      - rewrite Hj. simpl. by rewrite Heq. }
    congruence.
  - intros Hdist. apply NoDup_fmap_2_strong.
    + intros [k1 n1] [k2 n2] H1 H2 Heq. rewrite Hitems in H1, H2.
      apply elem_of_map_to_list in H1, H2. simpl in Heq.
      destruct (decide (k1 = k2)) as [->|Hne]; [congruence|].
      by destruct (Hdist _ _ _ _ H1 H2 Hne).
    + rewrite Hitems. apply NoDup_map_to_list.
Qed.

(** X5: the node loop of [get_nice_cx] files each staged node under its
    ['@id'].  Into an empty network, and in whatever order the inventory
    is visited, the network gets as many nodes as are staged exactly when
    the staged ids are pairwise distinct; and then the nodes of the
    network are the staged nodes, each under its id. *)
Theorem nodes_kept_iff_ids_distinct (b : builder)
    (items : list (option string * node)) :
  lists_items items (node_inventory b) →
  (size (assemble_nodes items ∅) = size (node_inventory b)
   ↔ node_ids_distinct b)
  ∧ (node_ids_distinct b →
     ∀ i n, assemble_nodes items ∅ !! i = Some n
            ↔ node_id n = i ∧ ∃ name, node_inventory b !! name = Some n).
Proof.
  intros Hitems. rewrite assemble_nodes_union, (right_id_L ∅ (∪)).
  assert (size (node_inventory b) = length items) as ->.
  { unfold lists_items in Hitems.
    by rewrite Hitems, length_map_to_list. }
  split.
  - rewrite <- (items_ids_NoDup b items Hitems).
    set (l := reverse ((λ kv : option string * node,
                          (node_id kv.2, kv.2)) <$> items)).
    assert (length items = length l) as ->.
    { unfold l. by rewrite length_reverse, length_fmap. }
    rewrite size_list_to_map_NoDup. unfold l.
    by rewrite reverse_Permutation, <- list_fmap_compose.
  - intros Hdist i n.
    apply (items_ids_NoDup b items Hitems) in Hdist.
    rewrite <- elem_of_list_to_map.
    2:{ by rewrite reverse_Permutation, <- list_fmap_compose. }
    rewrite elem_of_reverse, list_elem_of_fmap. unfold lists_items in Hitems.
    split.
    + intros [[name n'] [[= -> ->] Hin]]. split; [done|]. exists name.
      rewrite Hitems in Hin. by apply elem_of_map_to_list in Hin.
    + intros [<- [name Hin]]. exists (name, n). split; [done|].
      rewrite Hitems. by apply elem_of_map_to_list.
Qed.

Lemma nodes_kept_iff_ids_distinct_witness :
  let b := run_calls init [AddNode (Some "x") None None None;
                           AddNode (Some "y") (Some "Y") None None] in
  let items := map_to_list (node_inventory b) in
  lists_items items (node_inventory b)
  ∧ (size (assemble_nodes items ∅) = size (node_inventory b)
     ↔ node_ids_distinct b)
  ∧ (node_ids_distinct b →
     ∀ i n, assemble_nodes items ∅ !! i = Some n
            ↔ node_id n = i ∧ ∃ name, node_inventory b !! name = Some n).
Proof.
  intros b items.
  assert (Hitems : lists_items items (node_inventory b)).
  { unfold lists_items, items. reflexivity. }
  split; [exact Hitems|].
  exact (nodes_kept_iff_ids_distinct b items Hitems).
Defined.

(** X6: the edge loop of [get_nice_cx] after any sequence of [add_node]
    and [add_edge] calls on a new builder, in whatever order the
    inventory is visited: the edges of the network are the staged edges
    over those the network held, and in a network that held none every
    edge is a staged one and sits under its own ['@id']. *)
Theorem edges_assembled_under_their_ids (cs : list call)
    (items : list (Z * edge)) (edges0 : gmap Z edge) :
  lists_items items (edge_inventory (run_calls init cs)) →
  assemble_edges items edges0 = edge_inventory (run_calls init cs) ∪ edges0
  ∧ (∀ k e, assemble_edges items ∅ !! k = Some e →
            edge_id e = k ∧ edge_inventory (run_calls init cs) !! k = Some e).
Proof.
  intros Hitems. split; [by apply assemble_edges_union|].
  intros k e. rewrite (assemble_edges_union _ _ _ Hitems).
  rewrite (right_id_L ∅ (∪)). intros Hk. split; [|exact Hk].
  by apply (edges_keyed_run cs init edges_keyed_init).
Qed.


Lemma edges_assembled_under_their_ids_witness :
  let cs := [AddEdge (EpId 0) (EpId 1) None None;
             AddEdge (EpId 1) (EpId 0) (Some "binds") (Some 7)] in
  let items := map_to_list (edge_inventory (run_calls init cs)) in
  lists_items items (edge_inventory (run_calls init cs))
  ∧ assemble_edges items ∅ = edge_inventory (run_calls init cs) ∪ ∅
  ∧ (∀ k e, assemble_edges items ∅ !! k = Some e →
            edge_id e = k ∧ edge_inventory (run_calls init cs) !! k = Some e).
Proof.
  intros cs items.
  assert (Hitems : lists_items items (edge_inventory (run_calls init cs))).
  { unfold lists_items, items. reflexivity. }
  split; [exact Hitems|].
  exact (edges_assembled_under_their_ids cs items ∅ Hitems).
Defined.

(** X7: the four loops of [get_nice_cx] run a second time, on the network
    the first run left: the nodes and the edges are as after the first
    run, and every attribute list has the staged attributes of its owner
    appended once more. *)
Theorem second_assembly_repeats_attributes
    (node_items : list (option string * node))
    (node_attribute_inventory : list attribute)
    (edge_items : list (Z * edge))
    (edge_attribute_inventory : list attribute) (cx cx1 : cx_network) :
  assemble_inventories node_items node_attribute_inventory edge_items
    edge_attribute_inventory cx = Done cx1 →
  ∃ cx2,
    assemble_inventories node_items node_attribute_inventory edge_items
      edge_attribute_inventory cx1 = Done cx2
    ∧ nodes cx2 = nodes cx1
    ∧ edges cx2 = edges cx1
    ∧ ∀ k,
        default [] (nodeAttributes cx2 !! k)
        = default [] (nodeAttributes cx1 !! k)
          ++ owned_by k node_attribute_inventory
        ∧ default [] (edgeAttributes cx2 !! k)
          = default [] (edgeAttributes cx1 !! k)
            ++ owned_by k edge_attribute_inventory.
Proof.
  unfold assemble_inventories.
  destruct (assemble_attributes node_attribute_inventory (nodeAttributes cx))
    as [na|] eqn:Hna; [|done].
  destruct (assemble_attributes edge_attribute_inventory (edgeAttributes cx))
    as [ea|] eqn:Hea; [|done].
  intros [= <-]. simpl.
  apply assemble_attributes_hashable in Hna, Hea.
  destruct (assemble_attributes_done _ na Hna) as (na2 & -> & Hna2).
  destruct (assemble_attributes_done _ ea Hea) as (ea2 & -> & Hea2).
  eexists. split; [reflexivity|]. simpl.
  unfold assemble_edges.
  rewrite !assemble_nodes_union,
    !(foldl_insert_union (λ kv : Z * edge, kv.1) (λ kv, kv.2)).
  rewrite !(assoc_L (∪)), !(idemp_L (∪)).
  split; [done|]. split; [done|]. intros k.
  split; [apply Hna2|apply Hea2].
Qed.

Lemma second_assembly_repeats_attributes_witness :
  let a po n := {| attr_po := po; attr_n := Some n;
                   attr_v := Client.JInt 1; attr_d := None |} in
  let bob := {| node_id := 0; node_n := Some "bob"; node_r := None;
                node_d := None |} in
  let loop := {| edge_id := 0; edge_s := EpId 0; edge_t := EpId 0;
                 edge_i := "interacts-with" |} in
  ∃ cx1 cx2,
    assemble_inventories [(Some "bob", bob)] [a (PoId 0) "x"] [(0, loop)]
      [a (PoId 0) "w"] new_cx = Done cx1
    ∧ assemble_inventories [(Some "bob", bob)] [a (PoId 0) "x"] [(0, loop)]
        [a (PoId 0) "w"] cx1 = Done cx2
    ∧ nodes cx2 = nodes cx1
    ∧ edges cx2 = edges cx1
    ∧ default [] (nodeAttributes cx2 !! Some 0)
      = default [] (nodeAttributes cx1 !! Some 0) ++ [a (PoId 0) "x"]
    ∧ default [] (edgeAttributes cx2 !! Some 0)
      = default [] (edgeAttributes cx1 !! Some 0) ++ [a (PoId 0) "w"].
Proof.
  intros a bob loop. eexists.
  destruct (second_assembly_repeats_attributes [(Some "bob", bob)]
              [a (PoId 0) "x"] [(0, loop)] [a (PoId 0) "w"] new_cx _ eq_refl)
    as (cx2 & Hrun & Hnodes & Hedges & Hattrs).
  exists cx2. split; [reflexivity|]. split; [exact Hrun|].
  split; [exact Hnodes|]. split; [exact Hedges|].
  split; [exact (proj1 (Hattrs (Some 0)))|exact (proj2 (Hattrs (Some 0)))].
Defined.

(** X8: [add_edge] with the explicit id that the counter holds, followed
    by an [add_edge] without id: the second call returns the id of the
    first and takes its place in the inventory, which holds one edge for
    the two calls. *)
Theorem counter_reuses_explicit_edge_id (b : builder)
    (source1 target1 source2 target2 : endpoint)
    (interaction1 interaction2 : option string) :
  let first :=
    add_edge b source1 target1 interaction1 (Some (edge_id_counter b)) in
  let second := add_edge first.1 source2 target2 interaction2 None in
  second.2 = first.2
  ∧ (∃ e, edge_inventory first.1 !! first.2 = Some e
          ∧ edge_s e = source1 ∧ edge_t e = target1)
  ∧ (∃ e, edge_inventory second.1 !! first.2 = Some e
          ∧ edge_s e = source2 ∧ edge_t e = target2)
  ∧ size (edge_inventory second.1) = size (edge_inventory first.1).
Proof.
  unfold add_edge. simpl. split; [done|].
  split; [rewrite lookup_insert_eq; eauto|].
  split; [rewrite lookup_insert_eq; eauto|]. rewrite insert_insert_eq.
  destruct (edge_inventory b !! edge_id_counter b) as [old|] eqn:Hold.
  - by rewrite !map_size_insert_Some by eauto.
  - by rewrite !map_size_insert_None by done.
Qed.

(** While the calls leave the edge ids to the counter, the staged edge
    ids are the numbers below the counter, and the counter advances by
    one with each [add_edge]. *)
Lemma edges_counted_run cs :
  ∀ b,
    forallb leaves_edge_id cs = true →
    0 ≤ edge_id_counter b →
    (∀ k, is_Some (edge_inventory b !! k) ↔ 0 ≤ k < edge_id_counter b) →
    edge_id_counter (run_calls b cs)
    = edge_id_counter b + Z.of_nat (length (List.filter is_add_edge cs))
    ∧ ∀ k, is_Some (edge_inventory (run_calls b cs) !! k)
           ↔ 0 ≤ k < edge_id_counter (run_calls b cs).
Proof.
  induction cs as [|c cs IH]; intros b Hall Hpos Hinv.
  { simpl. split; [lia|exact Hinv]. }
  simpl in Hall. apply andb_true_iff in Hall as [Hc Hcs].
  destruct c as [name represents id data_type
                |source target interaction id]; simpl.
  - assert (edge_id_counter (add_node b name represents id data_type).1
            = edge_id_counter b
            ∧ edge_inventory (add_node b name represents id data_type).1
              = edge_inventory b) as [Hcnt Hedges].
    { unfold add_node. destruct (node_inventory b !! name); [done|].
      by destruct (truthy_int id). }
    destruct (IH (add_node b name represents id data_type).1 Hcs)
      as [Hcount Hkeys].
    + by rewrite Hcnt.
    + by rewrite Hcnt, Hedges.
    + split; [by rewrite Hcount, Hcnt|exact Hkeys].
  - simpl in Hc. apply bool_decide_eq_true in Hc as ->.
    destruct (IH (add_edge b source target interaction None).1 Hcs)
      as [Hcount Hkeys].
    + simpl. lia.
    + intros k. simpl. rewrite lookup_insert. case_decide.
      * split; [intros _; lia|eauto].
      * rewrite Hinv. lia.
    + split; [|exact Hkeys]. rewrite Hcount. simpl. lia.
Qed.

(** X9: [add_edge] never merges.  After any sequence of calls on a new
    builder in which no [add_edge] supplies an id, the edge counter is the
    number of [add_edge] calls and the staged edge ids are exactly the
    numbers below it: one edge for each call, also for calls with equal
    arguments. *)
Theorem add_edge_never_merges (cs : list call) :
  forallb leaves_edge_id cs = true →
  edge_id_counter (run_calls init cs)
  = Z.of_nat (length (List.filter is_add_edge cs))
  ∧ ∀ k, is_Some (edge_inventory (run_calls init cs) !! k)
         ↔ 0 ≤ k < Z.of_nat (length (List.filter is_add_edge cs)).
Proof.
  intros Hall. destruct (edges_counted_run cs init Hall) as [Hcount Hkeys].
  - simpl. lia.
  - intros k. simpl. rewrite lookup_empty. split; [by intros []|lia].
  - simpl in Hcount. split; [exact Hcount|]. intros k.
    by rewrite Hkeys, Hcount.
Qed.

Lemma add_edge_never_merges_witness :
  let cs := [AddNode (Some "x") None (Some 5) None;
             AddEdge (EpId 5) (EpId 5) None None;
             AddEdge (EpId 5) (EpId 5) None None] in
  forallb leaves_edge_id cs = true
  ∧ edge_id_counter (run_calls init cs) = 2
  ∧ ∀ k, is_Some (edge_inventory (run_calls init cs) !! k) ↔ 0 ≤ k < 2.
Proof.
  intros cs. split; [reflexivity|].
  exact (add_edge_never_merges cs eq_refl).
Defined.

(** ** Network attributes *)

(** Either call writes one entry. *)
Lemma run_network_attribute_call_insert inventory c :
  run_network_attribute_call inventory c
  = <[call_key c := call_entry c]> inventory.
Proof. by destruct c. Qed.

(** X10: after any sequence of [set_name] and [add_network_attribute]
    calls on a new builder, the network attribute found under a name is
    the one the last call for that name wrote, and a name no call wrote
    has none: [set_name] and [add_network_attribute] with the name
    ['name'] replace one another, and a call without a truthy type
    leaves no ['d'] of an earlier call behind. *)
Theorem network_attribute_last_write_wins
    (cs : list network_attribute_call) (k : option string)
    (a : network_attribute) :
  foldl run_network_attribute_call ∅ cs !! k = Some a
  ↔ ∃ before c after,
      cs = before ++ c :: after
      ∧ call_key c = k ∧ call_entry c = a
      ∧ Forall (λ c', call_key c' ≠ k) after.
Proof.
  induction cs as [|c cs IH] using rev_ind.
  - simpl. rewrite lookup_empty. split; [done|].
    intros (before & c & after & Hcs & _). by destruct before.
  - rewrite foldl_snoc, run_network_attribute_call_insert, lookup_insert.
    case_decide as Hkey.
    + split.
      * intros [= <-]. exists cs, c, []. by repeat split.
      * intros (before & c' & after & Hcs & Hk & Ha & Hafter).
        destruct after as [|c'' after _] using rev_ind.
        { apply app_inj_tail in Hcs as [_ <-]. by rewrite Ha. }
        rewrite app_comm_cons, app_assoc in Hcs.
        apply app_inj_tail in Hcs as [_ <-].
        apply Forall_app in Hafter as [_ Hlast].
        rewrite Forall_singleton in Hlast. by destruct (Hlast Hkey).
    + rewrite IH. split.
      * intros (before & c' & after & -> & Hk & Ha & Hafter).
        exists before, c', (after ++ [c]). rewrite <- app_assoc.
        repeat split; [done|done|]. apply Forall_app. split; [done|].
        by apply Forall_singleton.
      * intros (before & c' & after & Hcs & Hk & Ha & Hafter).
        destruct after as [|c'' after _] using rev_ind.
        { apply app_inj_tail in Hcs as [_ <-]. congruence. }
        rewrite app_comm_cons, app_assoc in Hcs.
        apply app_inj_tail in Hcs as [-> <-].
        apply Forall_app in Hafter as [Hafter _].
        by exists before, c', after.
Qed.

End AssemblyFacts.

(** * Properties of [save_new_network] beyond the status bundle *)

Section UploadFacts.

Import Client.


(** X12: a list that passes the three checks but whose last element is
    no dict is not reported as invalid CX: [save_new_network] raises
    [UnboundLocalError] when the last element is [None], for [stream] is
    never bound, and [AttributeError] when it is a number, a string or a
    list, which have no [get]. *)
Theorem tail_that_is_no_dict_raises (h : heap) (l : nat) (items : list val)
    (tail : val) :
  h !! l = Some (OList items) →
  last items = Some tail →
  (∀ d entries, tail = VRef d → h !! d ≠ Some (ODict entries)) →
  (∀ d, tail = VRef d → is_Some (h !! d)) →
  save_new_network h (VRef l)
  = Raise match tail with
          | VNone => UnboundLocalError
          | _ => AttributeError
          end.
Proof.
  intros Hl Hlast Hnodict Hobj. simpl. rewrite Hl.
  destruct items as [|v items]; [done|]. simpl length. simpl Nat.eqb.
  cbv iota. rewrite Hlast.
  destruct tail as [|b|z|s|d]; try done.
  destruct (Hobj d eq_refl) as [[xs|es] Hd]; rewrite Hd; [done|].
  by destruct (Hnodict d es eq_refl).
Qed.

Lemma tail_that_is_no_dict_raises_witness :
  let h := [OList [VRef 1; VNone]; ODict [("nodes", VInt 0)]] in
  h !! 0%nat = Some (OList [VRef 1; VNone])
  ∧ last [VRef 1; VNone] = Some VNone
  ∧ save_new_network h (VRef 0) = Raise UnboundLocalError.
Proof.
  intros h. split; [reflexivity|]. split; [reflexivity|].
  apply (tail_that_is_no_dict_raises h 0 [VRef 1; VNone] VNone);
    [reflexivity|reflexivity|discriminate|discriminate].
Defined.

(** X13: whenever [save_new_network] goes on to the upload, the store it
    leaves only extends the one it found: no object is removed, a dict is
    never changed, and a list is either unchanged or has elements
    appended at its end. *)
Theorem save_new_network_only_appends (h h' : heap) (cx : val) :
  save_new_network h cx = Upload h' →
  (length h ≤ length h')%nat
  ∧ ∀ i o, h !! i = Some o →
      h' !! i = Some o
      ∨ ∃ items more, o = OList items ∧ h' !! i = Some (OList (items ++ more)).
Proof.
  destruct cx as [|b|z|s|l]; simpl; try done.
  destruct (h !! l) as [[items|entries]|] eqn:Hl; try done.
  destruct (length items =? 0)%nat; [done|].
  destruct (last items) as [[| | | |d]|]; try done.
  destruct (h !! d) as [[?|es]|]; try done.
  unfold ensure_status.
  assert (Hframe : ∀ k xs more tail,
            h !! k = Some (OList xs) →
            (length h ≤ length (<[k := OList (xs ++ more)]> (h ++ tail)))%nat
            ∧ ∀ i o, h !! i = Some o →
                <[k := OList (xs ++ more)]> (h ++ tail) !! i = Some o
                ∨ ∃ items0 more0,
                    o = OList items0
                    ∧ <[k := OList (xs ++ more)]> (h ++ tail) !! i
                      = Some (OList (items0 ++ more0))).
  { intros k xs more tail Hk. split.
    - rewrite length_insert, length_app. lia.
    - intros i o Hi. destruct (decide (i = k)) as [->|Hne].
      + right. exists xs, more. split; [congruence|].
        apply list_lookup_insert_eq. rewrite length_app.
        apply lookup_lt_Some in Hk. lia.
      + left. rewrite list_lookup_insert_ne by done.
        by apply lookup_app_l_Some. }
  destruct (dict_get "status" es) as [| | |s|s]; try done.
  - intros [= <-]. by apply Hframe.
  - by destruct (String.length s <? 1)%nat; [|intros [= <-]; eauto].
  - destruct (h !! s) as [[recs|es']|] eqn:Hs; try done.
    + destruct (length recs <? 1)%nat; intros [= <-]; [|eauto].
      by apply Hframe.
    + by destruct (length es' <? 1)%nat; [|intros [= <-]; eauto].
Qed.

Lemma save_new_network_only_appends_witness :
  ∃ h',
    save_new_network bob_heap (VRef 0) = Upload h'
    ∧ (length bob_heap ≤ length h')%nat
    ∧ ∀ i o, bob_heap !! i = Some o →
        h' !! i = Some o
        ∨ ∃ items more,
            o = OList items ∧ h' !! i = Some (OList (items ++ more)).
Proof.
  eexists. split; [reflexivity|].
  exact (save_new_network_only_appends bob_heap _ (VRef 0) eq_refl).
Defined.

End UploadFacts.

(** * Properties of the constructor and of the requests *)

Section Ndex2Facts.

Import Ndex2.

(** A prefix, and an occurrence, stay when the string is extended. *)
Lemma prefix_app_l needle s rest :
  String.prefix needle s = true → String.prefix needle (s +:+ rest) = true.
Proof.
  revert s. induction needle as [|a needle IH]; intros s.
  { intros _. by destruct (s +:+ rest). }
  destruct s as [|b s]; simpl; [done|].
  destruct (Ascii.ascii_dec a b); [apply IH|done].
Qed.

Lemma str_in_app_l needle s rest :
  str_in needle s = true → str_in needle (s +:+ rest) = true.
Proof.
  induction s as [|b s IH]; simpl.
  - rewrite orb_false_r. intros Hp. destruct needle; [|done].
    destruct rest; [done|]. simpl. by destruct rest.
  - intros [Hp|Hin]%orb_true_iff.
    + apply orb_true_iff. left.
      by apply (prefix_app_l needle (String b s) rest).
    + apply orb_true_iff. right. by apply IH.
Qed.

(** X14: every client the constructor makes has a host in which ['http']
    occurs, and its version and host go together: the float [1.3] with the
    fixed localhost URL, the string ["1.3"] with a host that ends in
    ['/rest'], or the version the server reported, which starts with
    ['2.'], with a host that ends in ['/v2'].  Its session has
    credentials exactly when the user name and the password are both
    truthy. *)
Theorem init_host_and_version (url username password user_agent
    : option string) (reply : status_reply) (c : client) :
  init url username password user_agent reply = inr c →
  str_in "http" (host c) = true
  ∧ (version_of c = Float13 ∧ host c = "http://localhost:8080/ndexbio-rest"
     ∨ (version_of c = Version "1.3" ∧ ∃ base, host c = base +:+ "/rest")
     ∨ ∃ pv base,
         version_of c = Version pv ∧ String.prefix "2." pv = true
         ∧ host c = base +:+ "/v2" ∧ reply = StatusData (Some (Some pv)))
  ∧ (is_Some (auth c)
     ↔ truthy_str username = true ∧ truthy_str password = true).
Proof.
  unfold init.
  set (base := match url with
               | Some h => if negb (str_in "http" h) then "http://" +:+ h
                           else h
               | None => DEFAULT_SERVER
               end).
  assert (Hbase : str_in "http" base = true).
  { unfold base. destruct url as [h|]; [|done].
    destruct (str_in "http" h) eqn:Hh; [done|]. done. }
  assert (Hauth : is_Some (if truthy_str username && truthy_str password
                           then Some (default "" username,
                                      default "" password)
                           else None)
                  ↔ truthy_str username = true ∧ truthy_str password = true).
  { destruct (truthy_str username), (truthy_str password); simpl;
      split; try done; try (by intros [? [=]]); try (by intros [[=] ?]);
      by intros []. }
  destruct (str_in "localhost" base).
  { intros [= <-]. simpl. split; [done|]. split; [by left|exact Hauth]. }
  destruct reply as [|[[pv|]|]|].
  - intros [= <-]. simpl. split; [by apply str_in_app_l|].
    split; [|exact Hauth]. right. left. eauto.
  - destruct (String.prefix "2." pv) eqn:Hpv; [|done]. simpl.
    intros [= <-]. simpl. split; [by apply str_in_app_l|].
    split; [|exact Hauth]. right. right. by exists pv, base.
  - intros [= <-]. simpl. split; [by apply str_in_app_l|].
    split; [|exact Hauth]. right. left. eauto.
  - intros [= <-]. simpl. split; [by apply str_in_app_l|].
    split; [|exact Hauth]. right. left. eauto.
  - done.
Qed.

Lemma init_host_and_version_witness :
  ∃ c,
    init (Some "test.ndexbio.org") (Some "bob") (Some "secret") (Some "")
      (StatusData (Some (Some "2.4.0"))) = inr c
    ∧ str_in "http" (host c) = true
    ∧ version_of c = Version "2.4.0"
    ∧ host c = "http://test.ndexbio.org/v2"
    ∧ is_Some (auth c).
Proof.
  eexists. split; [reflexivity|].
  destruct (init_host_and_version (Some "test.ndexbio.org") (Some "bob")
              (Some "secret") (Some "") (StatusData (Some (Some "2.4.0"))) _
              eq_refl) as (Hhttp & _ & Hauth).
  split; [exact Hhttp|]. split; [reflexivity|]. split; [reflexivity|].
  apply Hauth. split; reflexivity.
Defined.

(** X15: [_return_response] as [post_multipart] and [put_multipart] call
    it, with [returnjsonundertry]: it raises only the [HTTPError] of a
    status from 400 to 599; otherwise it returns the empty string, the
    parsed body, or the text of a body that does not parse; and neither
    the content-type header nor [returnfullresponse] has a part in the
    result. *)
Theorem response_of_multipart (r : response) (returnfullresponse : bool) :
  (∀ e, _return_response r returnfullresponse true = inl e
        ↔ e = HTTPError ∧ 400 ≤ status_code r < 600)
  ∧ (∀ v, _return_response r returnfullresponse true = inr v →
          v = RetText ""
          ∨ (∃ j, json_body r = Some j ∧ v = RetJson j)
          ∨ (json_body r = None ∧ v = RetText (text r)))
  ∧ ∀ header body,
      _return_response
        {| status_code := status_code r; content_type := header;
           json_body := json_body r; text := text r |}
        body true
      = _return_response r returnfullresponse true.
Proof.
  unfold _return_response, raise_for_status. simpl.
  split; [|split; [|done]].
  - intros e. destruct (Z.leb_spec 400 (status_code r));
      destruct (Z.ltb_spec (status_code r) 600); simpl;
      [split; [intros [= <-]; split; [done|lia]|by intros [-> _]]|..];
      (destruct (status_code r =? 204); [|destruct (json_body r)]);
      (split; [done|lia]).
  - intros v.
    destruct ((400 <=? status_code r) && (status_code r <? 600)); [done|].
    destruct (status_code r =? 204); [intros [= <-]; by left|].
    destruct (json_body r) as [j|]; intros [= <-]; right; eauto.
Qed.

(** X16: on a client made against a server that reports a version other
    than ["2.0"], [make_network_public] and [make_network_private] send
    nothing: they go to [update_network_profile], which refuses a truthy
    visibility for a version that starts with ['2.'].  They raise the
    [NDExUnauthorizedError] without credentials, and with them the
    exception of [update_network_profile] ([AttributeError] on the
    localhost client, whose version is a float). *)
Theorem visibility_refused_past_2_0 (url username password user_agent
    : option string) (pv network_id : string) (c : client) :
  init url username password user_agent (StatusData (Some (Some pv)))
  = inr c →
  pv ≠ "2.0" →
  let raised :=
    match auth c, version_of c with
    | None, _ =>
        NDExUnauthorizedError "This method requires user authentication"
    | Some _, Float13 => AttributeError
    | Some _, Version _ => PyException visibility_message
    end in
  make_network_public c network_id = inl raised
  ∧ make_network_private c network_id = inl raised.
Proof.
  intros Hinit Hpv. revert Hinit. unfold init.
  destruct (str_in "localhost" _).
  - intros [= <-].
    unfold make_network_public, make_network_private, update_network_profile,
      _require_auth. simpl.
    by destruct (truthy_str username && truthy_str password).
  - destruct (String.prefix "2." pv) eqn:Hprefix; simpl; [|done].
    intros [= <-].
    unfold make_network_public, make_network_private, update_network_profile,
      _require_auth. simpl.
    destruct (String.eqb_spec pv "2.0") as [|_]; [done|]. rewrite Hprefix.
    by destruct (truthy_str username && truthy_str password).
Qed.

Lemma visibility_refused_past_2_0_witness :
  ∃ c,
    init (Some "test.ndexbio.org") (Some "bob") (Some "secret") (Some "")
      (StatusData (Some (Some "2.4.0"))) = inr c
    ∧ make_network_public c "uuid" = inl (PyException visibility_message)
    ∧ make_network_private c "uuid" = inl (PyException visibility_message).
Proof.
  eexists. split; [reflexivity|].
  apply (visibility_refused_past_2_0 (Some "test.ndexbio.org") (Some "bob")
           (Some "secret") (Some "") "2.4.0" "uuid" _ eq_refl).
  discriminate.
Defined.

(** The loop from [count] with [remaining] turns left. *)
Lemma delete_loop_spec server retry remaining :
  ∀ count,
    let result := delete_loop server retry remaining count in
    (count ≤ result.2 ≤ count + remaining)%nat
    ∧ (∀ r, result.1 = Deleted r
            ↔ ∃ k, (count ≤ k < count + remaining)%nat
                   ∧ server k = Returns r
                   ∧ ∀ i, (count ≤ i < k)%nat → concurrent (server i))
    ∧ (result.1 = Locked retry
       ↔ ∀ i, (count ≤ i < count + remaining)%nat → concurrent (server i))
    ∧ (∀ i, (S i < result.2)%nat → (count ≤ i)%nat → concurrent (server i)).
Proof.
  induction remaining as [|remaining IH]; intros count; simpl.
  { split; [lia|]. split; [|split].
    - intros r. split; [done|]. intros (k & Hk & _). lia.
    - split; [intros _ i Hi; lia|done].
    - intros i. lia. }
  destruct (server count) as [r|errorCode| |] eqn:Hcount; simpl.
  - split; [lia|]. split; [|split].
    + intros r'. split.
      * intros [= <-]. exists count. split; [lia|]. split; [done|].
        intros i. lia.
      * intros (k & Hk & Hret & Hbefore).
        destruct (decide (k = count)) as [->|Hne]; [congruence|].
        destruct (Hbefore count) as (code & Hcode & _); [lia|]. congruence.
    + split; [done|]. intros Hall.
      destruct (Hall count) as (code & Hcode & _); [lia|]. congruence.
    + intros i. lia.
  - destruct (String.prefix "NDEx_Concurrent_Modification" errorCode)
      eqn:Hprefix.
    + specialize (IH (S count)). simpl in IH.
      destruct IH as (Hbound & Hdel & Hlock & Hseen).
      assert (Hc : concurrent (server count)) by (by exists errorCode).
      split; [lia|]. split; [|split].
      * intros r. rewrite Hdel. split.
        -- intros (k & Hk & Hret & Hbefore). exists k. split; [lia|].
           split; [done|]. intros i Hi.
           destruct (decide (i = count)) as [->|Hne]; [done|].
           apply Hbefore. lia.
        -- intros (k & Hk & Hret & Hbefore).
           destruct (decide (k = count)) as [->|Hne]; [congruence|].
           exists k. split; [lia|]. split; [done|]. intros i Hi.
           apply Hbefore. lia.
      * rewrite Hlock. split.
        -- intros Hall i Hi.
           destruct (decide (i = count)) as [->|Hne]; [done|].
           apply Hall. lia.
        -- intros Hall i Hi. apply Hall. lia.
      * intros i Hi Hle.
        destruct (decide (i = count)) as [->|Hne]; [done|].
        apply Hseen; lia.
    + simpl. split; [lia|]. split; [|split].
      * intros r. split; [done|]. intros (k & Hk & Hret & Hbefore).
        destruct (decide (k = count)) as [->|Hne]; [congruence|].
        destruct (Hbefore count) as (code & Hcode & Hp); [lia|]. congruence.
      * split; [done|]. intros Hall.
        destruct (Hall count) as (code & Hcode & Hp); [lia|]. congruence.
      * intros i. lia.
  - split; [lia|]. split; [|split].
    + intros r. split; [done|]. intros (k & Hk & Hret & Hbefore).
      destruct (decide (k = count)) as [->|Hne]; [congruence|].
      destruct (Hbefore count) as (code & Hcode & _); [lia|]. congruence.
    + split; [done|]. intros Hall.
      destruct (Hall count) as (code & Hcode & _); [lia|]. congruence.
    + intros i. lia.
  - split; [lia|]. split; [|split].
    + intros r. split; [done|]. intros (k & Hk & Hret & Hbefore).
      destruct (decide (k = count)) as [->|Hne]; [congruence|].
      destruct (Hbefore count) as (code & Hcode & _); [lia|]. congruence.
    + split; [done|]. intros Hall.
      destruct (Hall count) as (code & Hcode & _); [lia|]. congruence.
    + intros i. lia.
Qed.

(** X17: [delete_network] with credentials makes at most [retry]
    requests, none for a [retry] of zero or less, and every request
    before the last met a concurrent-modification failure.  It returns a
    result exactly when, within the first [retry] requests, one succeeds
    after concurrent-modification failures only; it raises
    ['Network is locked after .. retry.'] exactly when the first [retry]
    requests all fail so. *)
Theorem delete_network_retries (c : client) (server : nat → attempt)
    (retry : Z) :
  is_Some (auth c) →
  let result := delete_network c server retry in
  Z.of_nat result.2 ≤ Z.max retry 0
  ∧ (∀ r, result.1 = Deleted r
          ↔ ∃ k, Z.of_nat k < retry ∧ server k = Returns r
                 ∧ ∀ i, (i < k)%nat → concurrent (server i))
  ∧ (result.1 = Locked retry
     ↔ ∀ i, Z.of_nat i < retry → concurrent (server i))
  ∧ (∀ i, (S i < result.2)%nat → concurrent (server i)).
Proof.
  intros [a Ha]. unfold delete_network, _require_auth. rewrite Ha.
  destruct (delete_loop_spec server retry (Z.to_nat retry) O)
    as (Hbound & Hdel & Hlock & Hseen).
  simpl in *. split; [lia|]. split; [|split].
  - intros r. rewrite Hdel. split.
    + intros (k & Hk & Hret & Hbefore). exists k. split; [lia|].
      split; [done|]. intros i Hi. apply Hbefore. lia.
    + intros (k & Hk & Hret & Hbefore). exists k. split; [lia|].
      split; [done|]. intros i Hi. apply Hbefore. lia.
  - rewrite Hlock. split.
    + intros Hall i Hi. apply Hall. lia.
    + intros Hall i Hi. apply Hall. lia.
  - intros i Hi. apply Hseen; lia.
Qed.

Lemma delete_network_retries_witness :
  let c := {| version_of := Version "2.0"; host := "http://x/v2";
              username := Some "bob"; password := Some "secret";
              user_agent := ""; auth := Some ("bob", "secret") |} in
  let server i :=
    if (i <? 2)%nat then Fails "NDEx_Concurrent_Modification_Exception"
    else Returns (RetText "") in
  is_Some (auth c)
  ∧ delete_network c server 5 = (Deleted (RetText ""), 3%nat)
  ∧ Z.of_nat (delete_network c server 5).2 ≤ Z.max 5 0
  ∧ ¬ (∀ i, Z.of_nat i < 5 → concurrent (server i)).
Proof.
  intros c server.
  assert (Hauth : is_Some (auth c)) by (by eexists).
  destruct (delete_network_retries c server 5 Hauth)
    as (Hbound & _ & Hlock & _).
  split; [exact Hauth|]. split; [reflexivity|]. split; [exact Hbound|].
  intros Hall. apply Hlock in Hall. discriminate Hall.
Defined.

(** X18: [save_new_network] on a client without credentials, for a
    network that [json.dumps] serializes and whose last aspect has no
    status: the call raises [NDExUnauthorizedError] and nothing is
    posted, but the caller's list has been changed by then, the status
    aspect is appended to it; a later call, after a login, finds it there
    and appends nothing.  (The stream is written before the credentials
    are looked at: a network that does not serialize raises there.) *)
Theorem refused_upload_has_changed_cx (c : client) (h : Client.heap)
    (l d : nat) (items : list Client.val)
    (entries : list (string * Client.val)) (visibility : option string)
    (n0 : nat) (j0 : Client.json) :
  auth c = None →
  h !! l = Some (Client.OList items) →
  last items = Some (Client.VRef d) →
  h !! d = Some (Client.ODict entries) →
  Client.dict_get "status" entries = Client.VNone →
  Client.dumps n0 h (Client.VRef l) = Some j0 →
  save_new_network c (n0 + 3) h (Client.VRef l) visibility
  = (Client.append_status_bundle h l items,
     Refused
       (NDExUnauthorizedError "This method requires user authentication"))
  ∧ Client.append_status_bundle h l items !! l
    = Some (Client.OList (items ++ [Client.VRef (length h + 2)%nat]))
  ∧ Client.save_new_network (Client.append_status_bundle h l items)
      (Client.VRef l)
    = Client.Upload (Client.append_status_bundle h l items).
Proof.
  intros Hauth Hl Hlast Hd Hstatus Hdumps.
  destruct (status_absent h l items d entries Hl Hlast Hd Hstatus)
    as (Hsave & _ & Hagain).
  destruct (status_absent_dumps h l items n0 j0 Hl Hdumps)
    as (js0 & _ & Hstream).
  destruct (append_status_bundle_spec h l items Hl) as (Hcx & _).
  unfold save_new_network. rewrite Hsave, Hstream.
  unfold save_cx_stream_as_new_network, _require_auth. rewrite Hauth.
  by repeat split.
Qed.

Lemma refused_upload_has_changed_cx_witness :
  let c := {| version_of := Version "2.4.0"; host := "http://x/v2";
              username := None; password := None;
              user_agent := ""; auth := None |} in
  auth c = None
  ∧ Client.dumps 4 Client.bob_heap (Client.VRef 0)
    = Some (Client.JArr
              [Client.JObj
                 [("nodes",
                   Client.JArr
                     [Client.JObj [("@id", Client.JInt 0);
                                   ("n", Client.JStr "bob");
                                   ("r", Client.JStr "bob")]])]])
  ∧ save_new_network c 7 Client.bob_heap (Client.VRef 0) (Some "PUBLIC")
    = (Client.append_status_bundle Client.bob_heap 0 [Client.VRef 1],
       Refused
         (NDExUnauthorizedError "This method requires user authentication"))
  ∧ Client.append_status_bundle Client.bob_heap 0 [Client.VRef 1] !! 0%nat
    = Some (Client.OList [Client.VRef 1; Client.VRef 6]).
Proof.
  intros c. split; [reflexivity|]. split; [reflexivity|].
  destruct (refused_upload_has_changed_cx c Client.bob_heap 0 1
              [Client.VRef 1] [("nodes", Client.VRef 2)] (Some "PUBLIC") 4 _
              eq_refl eq_refl eq_refl eq_refl eq_refl eq_refl)
    as (Hcall & Hcx & _).
  split; [exact Hcall|exact Hcx].
Defined.

(** X19: [save_new_network] on a client with credentials, for a network
    that serializes and whose last aspect has no status: the stream that
    is posted is the network with the status aspect
    [{"status": [{"error": "", "success": true}]}] as its last element,
    and it goes to [/network] under the host when the version is ["2.0"]
    and to [/network/asCX] otherwise, with the query [visibility=..] only
    for a truthy visibility. *)
Theorem accepted_upload_posts_status (c : client) (h : Client.heap)
    (l d : nat) (items : list Client.val)
    (entries : list (string * Client.val)) (visibility : option string)
    (n0 : nat) (js0 : list Client.json) :
  is_Some (auth c) →
  h !! l = Some (Client.OList items) →
  last items = Some (Client.VRef d) →
  h !! d = Some (Client.ODict entries) →
  Client.dict_get "status" entries = Client.VNone →
  Client.dumps n0 h (Client.VRef l) = Some (Client.JArr js0) →
  save_new_network c (n0 + 3) h (Client.VRef l) visibility
  = (Client.append_status_bundle h l items,
     Posted (Client.JArr (js0 ++ [Client.status_json]))
       (host c
        +:+ (if is_2_0 (version_of c) then "/network" else "/network/asCX")
        +:+ (if truthy_str visibility
             then "?visibility=" +:+ default "" visibility else ""))).
Proof.
  intros [a Hauth] Hl Hlast Hd Hstatus Hdumps.
  destruct (status_absent h l items d entries Hl Hlast Hd Hstatus)
    as (Hsave & _).
  destruct (status_absent_dumps h l items n0 _ Hl Hdumps)
    as (js & [= <-] & Hstream).
  unfold save_new_network. rewrite Hsave, Hstream.
  unfold save_cx_stream_as_new_network, _require_auth, post_multipart.
  rewrite Hauth.
  by destruct (truthy_str visibility), (is_2_0 (version_of c)).
Qed.

Lemma accepted_upload_posts_status_witness :
  let c := {| version_of := Version "2.4.0"; host := "http://x/v2";
              username := Some "bob"; password := Some "secret";
              user_agent := ""; auth := Some ("bob", "secret") |} in
  let bob := Client.JObj
               [("nodes",
                 Client.JArr
                   [Client.JObj [("@id", Client.JInt 0);
                                 ("n", Client.JStr "bob");
                                 ("r", Client.JStr "bob")]])] in
  is_Some (auth c)
  ∧ Client.dumps 4 Client.bob_heap (Client.VRef 0)
    = Some (Client.JArr [bob])
  ∧ save_new_network c 7 Client.bob_heap (Client.VRef 0) (Some "PUBLIC")
    = (Client.append_status_bundle Client.bob_heap 0 [Client.VRef 1],
       Posted (Client.JArr [bob; Client.status_json])
         "http://x/v2/network/asCX?visibility=PUBLIC").
Proof.
  intros c bob.
  assert (Hauth : is_Some (auth c)) by (by eexists).
  split; [exact Hauth|]. split; [reflexivity|].
  exact (accepted_upload_posts_status c Client.bob_heap 0 1 [Client.VRef 1]
           [("nodes", Client.VRef 2)] (Some "PUBLIC") 4 [bob] Hauth eq_refl
           eq_refl eq_refl eq_refl eq_refl).
Defined.

End Ndex2Facts.
